(** * The Dungeon walker of bpmn-js (lib/features/dungeon/Dungeon.js)

    A shallow embedding of the reveal/hide walker, of the collaborators it
    drives (element registry, graphics, zoom-scroll, console) and of the
    [shape.added] listener, followed by the properties of the walker.

    JavaScript features and how they are rendered here:
    - the registry's [_elements] object is a [gmap] from id to container;
    - a graphics object lives in its container: a reference to it is the
      key of that container, and [gfx.attr] updates the container in place;
    - exceptions and mutation are threaded by the [Js] monad: a procedure
      maps a world to a completion (normal or thrown) and the world it left;
    - numbers are IEEE 754 doubles: the kernel's primitive floats, with
      their own negation and addition; the runtime's conversion of a
      number to a string is a collaborator. *)

From stdpp Require Import gmap strings list fin_maps pretty.
From Corelib Require Import PrimFloat FloatOps SpecFloat.

Open Scope Z_scope.

(** ** Numbers *)

(** A JavaScript number is a double. Unary minus and [+] on numbers are
    the negation and the addition of IEEE 754, written [- a] and [a + b]
    in [float_scope]. A coordinate that is absent reads as [undefined], on
    which arithmetic yields NaN: it is written [nan]. *)
Abbreviation number := float (only parsing).

(** The conversion of a number to a string that [+] performs on a number
    next to a string (Number::toString of the language): a routine of the
    runtime, taken as a collaborator. *)
Class Runtime := {
  toString : number → string
}.

(** ** The diagram model, as far as the walker reads it *)

(** What every diagram object carries: [id], [type] (the shape's own type
    tag, ['label'] for labels) and the declared type of its business
    object, which the classifier matches. *)
Record Base := mkBase {
  id : string;
  type : string;
  businessObject : string
}.

(** A connection as reached through [element.incoming] and
    [element.outgoing], with the two ends it points to. *)
Record Connection := mkConnection {
  connection_base :> Base;
  source : Base;
  target : Base
}.

#[global] Instance Base_eq_dec : EqDecision Base.
Proof. solve_decision. Defined.

#[global] Instance Connection_eq_dec : EqDecision Connection.
Proof. solve_decision. Defined.

(** An element of the registry. [parent] is absent on the root;
    [incoming] may be absent (undefined); a missing [outgoing] and an empty
    one are iterated alike by lodash (no iteration). *)
Record Element := mkElement {
  element_base :> Base;
  parent : option Base;
  x : number;
  y : number;
  width : number;
  height : number;
  incoming : option (list Connection);
  outgoing : list Connection
}.

(** ** Graphics *)

Inductive Node :=
  | Visual (tag : string)
  | Image (uri : string) (ix iy iwidth iheight : number).

Record Gfx := mkGfx {
  attrs : gmap string string;
  children : list Node
}.

Record Container := mkContainer {
  element : Element;
  gfx : Gfx
}.

(** ** The world the walker runs in *)

Inductive ZoomCall :=
  | CallReset
  | CallScroll (dx dy : number).

Record World := mkWorld {
  elementRegistry : gmap string Container;
  zoomScroll : list ZoomCall;
  console : list string
}.

(** ** Procedures: state and exceptions *)

Inductive exn :=
  | TypeError.

Inductive completion (A : Type) :=
  | Normal (a : A)
  | Throw (e : exn).
Arguments Normal {A} a.
Arguments Throw {A} e.

Definition Js (A : Type) : Type := World → completion A * World.

Definition ret {A} (a : A) : Js A := fun w => (Normal a, w).

Definition throw {A} (e : exn) : Js A := fun w => (Throw e, w).

Definition bind {A B} (m : Js A) (k : A → Js B) : Js B :=
  fun w =>
    match m w with
    | (Normal a, w') => k a w'
    | (Throw e, w') => (Throw e, w')
    end.

Declare Scope js_scope.
Delimit Scope js_scope with js.
Notation "'let!' v ':=' m 'in' k" := (bind m (fun v => k))
  (at level 10, v name, m at level 100, k at level 200) : js_scope.
Notation "m ';;;' k" := (bind m (fun _ => k))
  (at level 100, k at level 200, right associativity) : js_scope.
Open Scope js_scope.

Definition modify (f : World → World) : Js unit := fun w => (Normal tt, f w).

(** The world a procedure leaves, whether it returned or threw. *)
Definition exec {A} (m : Js A) (w : World) : World := snd (m w).

(** lodash [forEach] on an array, with an iteratee that never returns
    [false] (the only value that stops the iteration early). *)
Fixpoint forEach {A} (collection : list A) (iteratee : A → Js unit) : Js unit :=
  match collection with
  | [] => ret tt
  | a :: rest => iteratee a ;;; forEach rest iteratee
  end.

(** ** The metamodel and the classifier *)

(** The BPMN metamodel is a collaborator: [instanceOf t T] tells whether
    declared type [t] is [T] or one of its subtypes. *)
Class Metamodel := {
  instanceOf : string → string → bool
}.

(** Modelled from the spec: [is] of lib/util/ModelUtil.js, which is not
    among the sources (named [isType] as in the spec, [is] being reserved).
    It matches the declared type tag of the element's business object
    against a type name, supertypes included, and has no side effect. The
    walker applies it to objects only, never to an absent value. *)
Definition isType `{Metamodel} (element : Base) (typeName : string) : bool :=
  instanceOf (businessObject element) typeName.

(** ** Collaborators *)

Module Console.
Definition log (message : string) : Js unit :=
  modify (fun w =>
    mkWorld (elementRegistry w) (zoomScroll w) (console w ++ [message])).
End Console.

Module ZoomScroll.
Definition call (c : ZoomCall) : Js unit :=
  modify (fun w =>
    mkWorld (elementRegistry w) (zoomScroll w ++ [c]) (console w)).

Definition reset : Js unit := call CallReset.

Definition scroll (dx dy : number) : Js unit := call (CallScroll dx dy).
End ZoomScroll.

(** The argument of a registry lookup: an id or an element. *)
Inductive Filter :=
  | ById (elementId : string)
  | ByElement (e : Element).

Module ElementRegistry.
(** [filter.id || filter]: an element stands for its id; an empty id is
    falsy, and the element itself is then used as the property key. *)
Definition key (filter : Filter) : string :=
  match filter with
  | ById s => s
  | ByElement e => if decide (id e = "") then "[object Object]" else id e
  end.

(** [get(id)]: the element registered under the id, if any. *)
Definition get (elementId : string) : Js (option Element) :=
  fun w => (Normal (element <$> elementRegistry w !! elementId), w).

(** [getGraphics(filter)]: a reference to the graphics of the container
    registered under the key, if any. *)
Definition getGraphics (filter : Filter) : Js (option string) :=
  fun w =>
    (Normal (match elementRegistry w !! key filter with
             | Some _ => Some (key filter)
             | None => None
             end), w).

Fixpoint select (fn : Element → Js bool) (candidates : list Element)
    : Js (list Element) :=
  match candidates with
  | [] => ret []
  | e :: rest =>
      let! keep := fn e in
      let! filtered := select fn rest in
      ret (if keep then e :: filtered else filtered)
  end.

(** [filter(fn)]: the registered elements on which [fn] answers truthy.
    The containers are visited in the order of the map, which stands for
    the key order of [_elements]; what the walker leaves does not depend
    on it. *)
Definition filter (fn : Element → Js bool) : Js (list Element) :=
  fun w => select fn (element <$> (map_to_list (elementRegistry w)).*2) w.
End ElementRegistry.

Module Graphics.
Definition setAttr (name value : string) (c : Container) : Container :=
  mkContainer (element c) (mkGfx (<[name := value]> (attrs (gfx c))) (children (gfx c))).

(** [gfx.attr(name, value)] on the graphics referenced by [ref]. *)
Definition attr (ref : string) (name value : string) : Js unit :=
  modify (fun w =>
    mkWorld (alter (setAttr name value) ref (elementRegistry w))
            (zoomScroll w) (console w)).

(** [gfx.image(uri, x, y, width, height)]: appends an image and returns
    its position among the children. *)
Definition image (uri : string) (ix iy iw ih : number) (g : Gfx) : nat * Gfx :=
  (length (children g), mkGfx (attrs g) (children g ++ [Image uri ix iy iw ih])).

(** [child.insertBefore(gfx.children()[0])]: moves the child at position
    [i] in front of the first child. *)
Definition insertBeforeFirst (i : nat) (g : Gfx) : Gfx :=
  match children g !! i with
  | Some n => mkGfx (attrs g) (n :: take i (children g) ++ drop (S i) (children g))
  | None => g
  end.
End Graphics.

(** ** The walker *)

Module Dungeon.
Section Walker.
Context `{Metamodel} `{Runtime}.

(** The [shape.added] listener: the iconography attached to the graphics
    of an added shape. The listener mutates [event.gfx]; here it returns
    the graphics it leaves. *)
Definition shapeAdded (element : Element) (gfx : Gfx) : Gfx :=
  if decide (type element = "label") then gfx
  else
    let gfx :=
      if isType element "bpmn:Task" || isType element "bpmn:CallActivity" then
        let uri := "resources/scroll.png" in
        let '(bla, gfx) :=
          Graphics.image uri (-20) (-20)
            (width element + 40)%float (height element + 40)%float gfx in
        Graphics.insertBeforeFirst bla gfx
      else gfx in
    let gfx :=
      if isType element "bpmn:StartEvent" && negb (bool_decide (type element = "label")) then
        let startUri := "resources/green-diamond.png" in
        snd (Graphics.image startUri 0 0 (width element) (height element) gfx)
      else gfx in
    let gfx :=
      if isType element "bpmn:EndEvent" && negb (bool_decide (type element = "label")) then
        let endUri := "resources/red-diamond.png" in
        snd (Graphics.image endUri 0 0 (width element) (height element) gfx)
      else gfx in
    let gfx :=
      if isType element "bpmn:Gateway" then
        let gatewayUri := "resources/swords.png" in
        snd (Graphics.image gatewayUri 0 0
               (width element + 2)%float (height element + 2)%float gfx)
      else gfx in
    if isType element "bpmn:SubProcess" then
      let hellUri := "resources/hell.png" in
      let '(hellImage, gfx) :=
        Graphics.image hellUri 0 0 (width element) (height element) gfx in
      Graphics.insertBeforeFirst hellImage gfx
    else gfx.

Definition show (elementId : string) : Js unit :=
  let! gfx := ElementRegistry.getGraphics (ById elementId) in
  match gfx with
  | Some g => Graphics.attr g "display" "inline"
  | None => ret tt
  end.

(** [hide] has no guard: [gfx.attr] on an absent graphics throws. Its
    argument is handed to [getGraphics] as it comes; [hideAll] passes
    elements. *)
Definition hide (elementId : Filter) : Js unit :=
  let! gfx := ElementRegistry.getGraphics elementId in
  match gfx with
  | Some g => Graphics.attr g "display" "none"
  | None => throw TypeError
  end.

Definition hideAll : Js unit :=
  let! allElements :=
    ElementRegistry.filter (fun element =>
      ret (negb (isType element "bpmn:Process"))) in
  forEach allElements (fun element => hide (ByElement element)).

(** The predicate of [start]: [&&] reads [element.parent.type] only on a
    start event, and reading it on an absent parent throws. *)
Definition isTopLevelStart (element : Element) : Js bool :=
  if isType element "bpmn:StartEvent" then
    match parent element with
    | Some p => ret (bool_decide (type p = "bpmn:Process"))
    | None => throw TypeError
    end
  else ret false.

Definition start : Js unit :=
  hideAll ;;;
  let! elements := ElementRegistry.filter isTopLevelStart in
  forEach elements (fun element => show (id element)).

(** [element.incoming && element.incoming !== []]: the second test
    compares with a fresh array and always holds, so every defined
    [incoming] is walked. [indexOf(..) !== -1] is membership. *)
Definition showElements (elementIds : list string) : Js unit :=
  forEach elementIds (fun elementId =>
    show elementId ;;;
    let! element := ElementRegistry.get elementId in
    match element with
    | None => Console.log ("element with id " +:+ elementId +:+ " not found!")
    | Some element =>
        match incoming element with
        | Some connections =>
            forEach connections (fun connection =>
              if bool_decide (id (source connection) ∈ elementIds)
              then show (id connection)
              else ret tt)
        | None => ret tt
        end
    end).

(** [showNext] has no guard either: [element.outgoing] on an absent
    element throws. *)
Definition showNext (taskId : string) : Js unit :=
  let! element := ElementRegistry.get taskId in
  match element with
  | None => throw TypeError
  | Some element =>
      forEach (outgoing element) (fun connection =>
        let target := target connection in
        if isType target "bpmn:Gateway" || isType target "bpmn:EndEvent" then
          show (id connection) ;;; show (id target)
        else ret tt)
  end.

Definition bla (x y : number) : Js unit :=
  ZoomScroll.reset ;;; ZoomScroll.scroll x y.

Definition scrollTo (elementId : string) : Js unit :=
  let PADDING := 75%float in
  let! el := ElementRegistry.get elementId in
  match el with
  | Some el =>
      let dx := (- x el + PADDING)%float in
      let dy := (- y el + PADDING)%float in
      Console.log ("scrollTo " +:+ elementId +:+ " position: "
                   +:+ toString dx +:+ "|" +:+ toString dy) ;;;
      ZoomScroll.reset ;;;
      ZoomScroll.scroll dx dy
  | None => ret tt
  end.

End Walker.
End Dungeon.

(** ** Visibility *)

(** The [display] attribute of the graphics registered under an id. *)
Definition display (w : World) (k : string) : option string :=
  c ← elementRegistry w !! k; attrs (gfx c) !! "display".

(** An id is visible when graphics are registered under it and their
    [display] is not ['none'] (an unset attribute renders). *)
Definition visible (w : World) (k : string) : bool :=
  match elementRegistry w !! k with
  | Some c => bool_decide (attrs (gfx c) !! "display" ≠ Some "none")
  | None => false
  end.

(** The elements of the registry, without their graphics. *)
Definition elementsOf (w : World) : gmap string Element :=
  element <$> elementRegistry w.

(** Setting [display] to one value on the graphics under each of the keys,
    and appending messages to the console: what the walker's procedures
    amount to. *)
Definition paint (value : string) (ks : list string) (w : World) : World :=
  mkWorld
    (foldl (λ r k, alter (Graphics.setAttr "display" value) k r) (elementRegistry w) ks)
    (zoomScroll w) (console w).

Definition say (messages : list string) (w : World) : World :=
  mkWorld (elementRegistry w) (zoomScroll w) (console w ++ messages).

(** ** Element graphs *)

(** A registry files each element under its own, non-empty id. *)
Definition keyed (w : World) : Prop :=
  map_Forall (λ k c, id (element c) = k ∧ k ≠ "") (elementRegistry w).

(** The elements [start] reveals: a start event whose parent's type is
    the root container's. *)
Definition topLevelStart `{Metamodel} (e : Element) : bool :=
  isType e "bpmn:StartEvent" &&
  match parent e with
  | Some p => bool_decide (type p = "bpmn:Process")
  | None => false
  end.

(** Every start event has a parent (only the root has none). *)
Definition startsHaveParent `{Metamodel} (w : World) : Prop :=
  map_Forall (λ _ c, isType (element c) "bpmn:StartEvent" = true →
                     is_Some (parent (element c))) (elementRegistry w).

(** The elements [filter] visits, and the keys [hideAll] and [start] end
    up painting. *)
Definition elementList (w : World) : list Element :=
  element <$> (map_to_list (elementRegistry w)).*2.

Definition hiddenKeys `{Metamodel} (w : World) : list string :=
  (λ e, ElementRegistry.key (ByElement e)) <$>
    List.filter (λ e : Element, negb (isType e "bpmn:Process")) (elementList w).

Definition startKeys `{Metamodel} (w : World) : list string :=
  (λ e : Element, id e) <$> List.filter topLevelStart (elementList w).

(** The connections of a diagram: those listed by a registered element. *)
Definition adjacent (e : Element) : list Connection :=
  default [] (incoming e) ++ outgoing e.

Definition connectionsOf (w : World) : list Connection :=
  elementList w ≫= adjacent.

(** The ids [showElements] passes to [show] on behalf of one id of its
    argument, and the message it logs for it. *)
Definition revealedFor (elementIds : list string) (elements : gmap string Element)
    (elementId : string) : list string :=
  elementId ::
  match elements !! elementId with
  | Some e =>
      (λ c : Connection, id c) <$>
        List.filter (λ c : Connection, bool_decide (id (source c) ∈ elementIds))
                    (default [] (incoming e))
  | None => []
  end.

Definition loggedFor (elements : gmap string Element) (elementId : string)
    : list string :=
  match elements !! elementId with
  | Some _ => []
  | None => ["element with id " +:+ elementId +:+ " not found!"]
  end.

(** The targets [showNext] walks to: gateways and end events. *)
Definition decisionPoint `{Metamodel} (c : Connection) : bool :=
  isType (target c) "bpmn:Gateway" || isType (target c) "bpmn:EndEvent".

Definition revealedNext `{Metamodel} (e : Element) : list string :=
  List.filter decisionPoint (outgoing e) ≫=
    λ c : Connection, [id c; id (target c)].

(** ** Walks *)

(** The calls a host drives the walker with. *)
Inductive Call :=
  | Start
  | ShowElements (elementIds : list string)
  | ShowNext (taskId : string).

Definition perform `{Metamodel} (call : Call) : Js unit :=
  match call with
  | Start => Dungeon.start
  | ShowElements elementIds => Dungeon.showElements elementIds
  | ShowNext taskId => Dungeon.showNext taskId
  end.

(** A host that goes on after a call, whether it returned or threw. *)
Definition session `{Metamodel} (calls : list Call) (w : World) : World :=
  foldl (λ w call, exec (perform call) w) w calls.


(** A well-formed element graph: elements are filed under their ids, start
    events have a parent, the connections an element lists as outgoing have
    it as source, and for every connection: its source is registered; what
    is registered under its id is neither a container nor a top-level start
    event; the connections that share its id share its source; and it is
    the target of no connection. *)
Definition wellFormed `{Metamodel} (w : World) : Prop :=
  keyed w
  ∧ startsHaveParent w
  ∧ map_Forall (λ k (e : Element),
      Forall (λ c : Connection, id (source c) = k) (outgoing e)) (elementsOf w)
  ∧ Forall (λ c : Connection,
      is_Some (elementsOf w !! id (source c))
      ∧ (λ e : Element, isType e "bpmn:Process" || topLevelStart e)
          <$> elementsOf w !! id c ≠ Some true
      ∧ Forall (λ c' : Connection,
          (id c' = id c → id (source c') = id (source c))
          ∧ id (target c') ≠ id c) (connectionsOf w))
      (connectionsOf w).

(** What the walk needs of an element graph to keep its edges attached:
    elements are filed under their ids, the connections an element lists
    as outgoing have it as source, and for every connection: its source is
    registered; what is registered under its id is neither a container nor
    a top-level start event; the connections that share its id share its
    source; and its id is not that of a Gateway or EndEvent a connection
    leads to. *)
Definition connected `{Metamodel} (w : World) : Prop :=
  keyed w
  ∧ map_Forall (λ k (e : Element),
      Forall (λ c : Connection, id (source c) = k) (outgoing e)) (elementsOf w)
  ∧ Forall (λ c : Connection,
      is_Some (elementsOf w !! id (source c))
      ∧ (λ e : Element, isType e "bpmn:Process" || topLevelStart e)
          <$> elementsOf w !! id c ≠ Some true
      ∧ Forall (λ c' : Connection,
          (id c' = id c → id (source c') = id (source c))
          ∧ (decisionPoint c' = true → id (target c') ≠ id c)) (connectionsOf w))
      (connectionsOf w).

(** The calls the walker's callers are meant to make: [showElements] on
    ids of elements, not of connections, and [showNext] on an id that is
    visible. *)
Definition permitted (w : World) (call : Call) : Prop :=
  match call with
  | Start => True
  | ShowElements elementIds =>
      Forall (λ c : Connection, id c ∉ elementIds) (connectionsOf w)
  | ShowNext taskId => visible w taskId = true
  end.


(** ** A concrete metamodel and a concrete diagram *)

(** The part of the BPMN 2.0 type hierarchy the walker asks about. *)
Definition supertypes (t : string) : list string :=
  if bool_decide (t ∈ ["bpmn:ExclusiveGateway"; "bpmn:ParallelGateway";
                       "bpmn:InclusiveGateway"; "bpmn:ComplexGateway";
                       "bpmn:EventBasedGateway"])
  then ["bpmn:Gateway"]
  else if bool_decide (t ∈ ["bpmn:UserTask"; "bpmn:ServiceTask";
                            "bpmn:ScriptTask"; "bpmn:ManualTask"])
  then ["bpmn:Task"]
  else if bool_decide (t ∈ ["bpmn:Transaction"; "bpmn:AdHocSubProcess"])
  then ["bpmn:SubProcess"]
  else [].

Definition bpmn : Metamodel :=
  {| instanceOf t T := bool_decide (t = T) || bool_decide (T ∈ supertypes t) |}.

(** The integer a number is, when it is one. *)
Definition integral (a : number) : option Z :=
  match Prim2SF a with
  | S754_zero _ => Some 0
  | S754_finite negative m e =>
      let magnitude :=
        if (0 <=? e) then Some (Z.pos m * 2 ^ e)
        else if (Z.pos m mod 2 ^ (- e) =? 0) then Some (Z.pos m / 2 ^ (- e))
        else None in
      (λ v, if negative then - v else v) <$> magnitude
  | _ => None
  end.

(** A runtime for the sample diagrams. It formats NaN, the infinities and
    the integers of magnitude up to 2^53 as the language does ([NaN],
    [Infinity], decimal digits with a minus sign); the samples format no
    other number, and any other is left as a question mark. *)
Definition decimal (a : number) : string :=
  if is_nan a then "NaN"
  else match Prim2SF a, integral a with
       | S754_infinity negative, _ =>
           if negative then "-Infinity" else "Infinity"
       | _, Some z => if (Z.abs z <=? 2 ^ 53) then pretty z else "?"
       | _, None => "?"
       end.

Definition sampleRuntime : Runtime := {| toString := decimal |}.

Module Sample.

Definition shape (i t : string) : Base := mkBase i t t.

Definition process := shape "Process_1" "bpmn:Process".
Definition startA := shape "A" "bpmn:StartEvent".
Definition taskB := shape "B" "bpmn:Task".
Definition endC := shape "C" "bpmn:EndEvent".
Definition taskD := shape "D" "bpmn:Task".
Definition gatewayG := shape "G" "bpmn:ExclusiveGateway".
Definition subP := shape "Sub" "bpmn:SubProcess".
Definition startN := shape "N" "bpmn:StartEvent".
(** The label of [A] shares the business object of [A]. *)
Definition labelA := mkBase "A_label" "label" "bpmn:StartEvent".

Definition flow (i : string) (s t : Base) : Connection :=
  mkConnection (shape i "bpmn:SequenceFlow") s t.

Definition f_AB := flow "f_AB" startA taskB.
Definition f_BC := flow "f_BC" taskB endC.
Definition f_BD := flow "f_BD" taskB taskD.
Definition f_BG := flow "f_BG" taskB gatewayG.

Definition node (b : Base) (p : Base) (px py : number) (i o : list Connection) : Element :=
  mkElement b (Some p) px py 100 80 (Some i) o.

(** A connection in the registry has no bounds and no adjacency. *)
Definition edge (c : Connection) : Element :=
  mkElement c (Some process) nan nan nan nan None [].

Definition elementB : Element :=
  node taskB process 300 80 [f_AB] [f_BC; f_BD; f_BG].

Definition fresh (e : Element) : string * Container :=
  (id e, mkContainer e (mkGfx ∅ [Visual "visual"])).

Definition registry : gmap string Container :=
  list_to_map
    [ fresh (mkElement process None nan nan nan nan (Some []) []);
      fresh (node startA process 180 100 [] [f_AB]);
      fresh (node labelA process 170 140 [] []);
      fresh elementB;
      fresh (node endC process 480 100 [f_BC] []);
      fresh (node taskD process 480 220 [f_BD] []);
      fresh (node gatewayG process 480 340 [f_BG] []);
      fresh (node subP process 300 400 [] []);
      fresh (node startN subP 320 420 [] []);
      fresh (edge f_AB); fresh (edge f_BC); fresh (edge f_BD); fresh (edge f_BG) ].

(** The diagram as imported: every display attribute unset. *)
Definition imported : World := mkWorld registry [] [].

(** The Reset state of the sample: the diagram after [hideAll]. *)
Definition hidden : World := exec (@Dungeon.hideAll bpmn) imported.

(** The ids that are visible, in the registry's order. *)
Definition visibleIds (w : World) : list string :=
  List.filter (visible w) (map_to_list (elementRegistry w)).*1.

End Sample.


(** ** Further notions *)

(** Whether graphics are registered under an id. *)
Definition registered (w : World) (k : string) : bool :=
  bool_decide (is_Some (elementRegistry w !! k)).

(** The line [showElements] logs for an id it does not find. *)
Definition notFound (elementId : string) : string :=
  "element with id " +:+ elementId +:+ " not found!".

(** The images the listener lays behind a shape (each is moved in front of
    the first child, the sub-process background last) and the badges it
    appends, in the order of its tests. *)
Definition backgrounds `{Metamodel} (e : Element) : list Node :=
  (if isType e "bpmn:SubProcess"
   then [Image "resources/hell.png" 0 0 (width e) (height e)]
   else [])
  ++ (if isType e "bpmn:Task" || isType e "bpmn:CallActivity"
      then [Image "resources/scroll.png" (-20) (-20)
                  (width e + 40)%float (height e + 40)%float]
      else []).

Definition badges `{Metamodel} (e : Element) : list Node :=
  (if isType e "bpmn:StartEvent"
   then [Image "resources/green-diamond.png" 0 0 (width e) (height e)]
   else [])
  ++ (if isType e "bpmn:EndEvent"
      then [Image "resources/red-diamond.png" 0 0 (width e) (height e)]
      else [])
  ++ (if isType e "bpmn:Gateway"
      then [Image "resources/swords.png" 0 0
                  (width e + 2)%float (height e + 2)%float]
      else []).

Definition isImage (n : Node) : Prop :=
  match n with
  | Image _ _ _ _ _ => True
  | Visual _ => False
  end.

(** A diagram whose start event has lost its parent. *)
Module Stray.

Definition orphan : Element :=
  mkElement Sample.startA None 180 100 36 36 (Some []) [].

Definition registry : gmap string Container :=
  list_to_map
    [ Sample.fresh (mkElement Sample.process None nan nan nan nan (Some []) []);
      Sample.fresh orphan;
      Sample.fresh (Sample.node Sample.taskD Sample.process 480 220 [] []) ].

Definition imported : World := mkWorld registry [] [].

End Stray.

(** The calls that move the camera. *)
Inductive Move :=
  | ScrollTo (elementId : string)
  | Bla (x y : number).

Definition move `{Runtime} (m : Move) : Js unit :=
  match m with
  | ScrollTo elementId => Dungeon.scrollTo elementId
  | Bla x y => Dungeon.bla x y
  end.

(** Every scroll the camera received came right after a reset. *)
Definition resetBeforeScroll (calls : list ZoomCall) : Prop :=
  ∀ i dx dy, calls !! i = Some (CallScroll dx dy) →
    ∃ j, i = S j ∧ calls !! j = Some CallReset.

(** ** The viewer (lib/Viewer.js): validation errors and listeners *)

From Stdlib Require Import Ascii.

Module Viewer.

(** [stripPrefix p s]: what follows [p] in [s], when [s] starts with [p]. *)
Fixpoint stripPrefix (p s : string) : option string :=
  match p, s with
  | EmptyString, _ => Some s
  | String a p', String b s' => if decide (a = b) then stripPrefix p' s' else None
  | String _ _, EmptyString => None
  end.

(** The longest prefix free of ['>'], and what follows it. *)
Fixpoint untilClosing (s : string) : string * string :=
  match s with
  | EmptyString => (EmptyString, EmptyString)
  | String a s' =>
      if decide (a = ">"%char) then (EmptyString, s)
      else let '(run, rest) := untilClosing s' in (String a run, rest)
  end.

(** A match of the pattern of [checkValidationError] that starts at the
    head of [s], as its two groups. The pattern is the text
    [unparsable content <], a group of one or more characters other than
    ['>'], the text [> detected], and a group of any characters up to the
    end of the message. The first group is greedy and can only stop at the
    first ['>']: a shorter run would be followed by a character that is
    not ['>']. *)
Definition matchHere (s : string) : option (string * string) :=
  match stripPrefix "unparsable content <" s with
  | Some rest =>
      let '(name, after) := untilClosing rest in
      if decide (name = EmptyString) then None
      else match stripPrefix "> detected" after with
           | Some tail => Some (name, tail)
           | None => None
           end
  | None => None
  end.

(** [pattern.exec(message)]: the leftmost match. *)
Fixpoint patternExec (s : string) : option (string * string) :=
  match matchHere s with
  | Some groups => Some groups
  | None =>
      match s with
      | EmptyString => None
      | String _ s' => patternExec s'
      end
  end.

(** [checkValidationError(err)], on the message of the error, which it
    rewrites in place before returning the error. *)
Definition checkValidationError (message : string) : string :=
  match patternExec message with
  | Some (name, tail) =>
      "unparsable content <" +:+ name +:+ "> detected; " +:+
      "this may indicate an invalid BPMN 2.0 diagram file" +:+ tail
  | None => message
  end.

(** A listener as [on] records it; handlers are told apart by a name. *)
Record Listener := mkListener {
  event : string;
  handler : string
}.

(** The viewer's [__listeners] (absent until the first [on]) and, when a
    diagram is loaded, the [on] calls its event bus has received. *)
Record Registrations := mkRegistrations {
  listeners : option (list Listener);
  eventBus : option (list Listener)
}.

(** [Viewer.prototype.on(event, handler)]. *)
Definition on (l : Listener) (v : Registrations) : Registrations :=
  let listeners := default [] (listeners v) ++ [l] in
  mkRegistrations (Some listeners) ((λ bus, bus ++ [l]) <$> eventBus v).

(** [initListeners(diagram, listeners)] on the event bus of a diagram. *)
Definition initListeners (bus : list Listener) (listeners : list Listener)
    : list Listener :=
  foldl (λ events l, events ++ [l]) bus listeners.

(** [Viewer.prototype._init(diagram)]: the event bus of the diagram
    after the call ([this.__listeners || []] is handed on). *)
Definition _init (bus : list Listener) (v : Registrations) : list Listener :=
  initListeners bus (default [] (listeners v)).

(** Whether [p] occurs in [s]. *)
Fixpoint occurs (p s : string) : bool :=
  match stripPrefix p s with
  | Some _ => true
  | None =>
      match s with
      | EmptyString => false
      | String _ s' => occurs p s'
      end
  end.

End Viewer.

(** * Properties *)

(** Closes a decidable goal about concrete data by evaluation. *)
Ltac by_evaluation := apply (bool_decide_unpack _); vm_compute; exact I.

(** ** Painting the registry *)

Lemma setAttr_setAttr name value c :
  Graphics.setAttr name value (Graphics.setAttr name value c)
  = Graphics.setAttr name value c.
Proof. unfold Graphics.setAttr; simpl. by rewrite insert_insert_eq. Qed.

Lemma paint_nil value w : paint value [] w = w.
Proof. by destruct w. Qed.

Lemma paint_app value ks1 ks2 w :
  paint value (ks1 ++ ks2) w = paint value ks2 (paint value ks1 w).
Proof. unfold paint; simpl. by rewrite foldl_app. Qed.

Lemma paint_cons value k ks w :
  paint value (k :: ks) w = paint value ks (paint value [k] w).
Proof. apply (paint_app value [k] ks). Qed.

Lemma paint_lookup value ks w k :
  elementRegistry (paint value ks w) !! k
  = if decide (k ∈ ks)
    then Graphics.setAttr "display" value <$> elementRegistry w !! k
    else elementRegistry w !! k.
Proof.
  revert w; induction ks as [|k0 ks IH]; intros w.
  - rewrite paint_nil. by rewrite decide_False by apply not_elem_of_nil.
  - rewrite paint_cons, IH. simpl. rewrite lookup_alter.
    destruct (decide (k0 = k)) as [->|Hne].
    + rewrite (decide_True (P := k ∈ k :: ks)) by apply list_elem_of_here.
      case_decide; [|done].
      destruct (elementRegistry w !! k); simpl; [|done].
      by rewrite setAttr_setAttr.
    + destruct (decide (k ∈ ks)) as [Hin|Hnin].
      * by rewrite decide_True by (by apply list_elem_of_further).
      * rewrite decide_False; [done|].
        intros [?|?]%elem_of_cons; congruence.
Qed.

Lemma paint_zoomScroll value ks w : zoomScroll (paint value ks w) = zoomScroll w.
Proof. done. Qed.

Lemma paint_console value ks w : console (paint value ks w) = console w.
Proof. done. Qed.

Lemma elementsOf_lookup w k :
  elementsOf w !! k = element <$> elementRegistry w !! k.
Proof. unfold elementsOf. by rewrite lookup_fmap. Qed.

Lemma elementsOf_paint value ks w : elementsOf (paint value ks w) = elementsOf w.
Proof.
  apply map_eq; intros k. rewrite !elementsOf_lookup, paint_lookup.
  case_decide; [|done]. by destruct (elementRegistry w !! k).
Qed.

Lemma elementsOf_say messages w : elementsOf (say messages w) = elementsOf w.
Proof. done. Qed.

(** Two worlds with the same registry lookups, calls and console are equal. *)
Lemma world_eq w1 w2 :
  (∀ k, elementRegistry w1 !! k = elementRegistry w2 !! k) →
  zoomScroll w1 = zoomScroll w2 →
  console w1 = console w2 →
  w1 = w2.
Proof.
  destruct w1, w2; simpl; intros Hreg -> ->. f_equal. by apply map_eq.
Qed.

Lemma paint_unregistered value k w :
  elementRegistry w !! k = None → paint value [k] w = w.
Proof.
  intros Hnone. apply world_eq; [|done..].
  intros k'. rewrite paint_lookup. case_decide as Hin; [|done].
  apply list_elem_of_singleton in Hin as ->. by rewrite Hnone.
Qed.

Lemma paint_say value ks messages w :
  paint value ks (say messages w) = say messages (paint value ks w).
Proof. done. Qed.

Lemma say_say m1 m2 w : say m2 (say m1 w) = say (m1 ++ m2) w.
Proof. unfold say; simpl. by rewrite app_assoc. Qed.

Lemma say_nil w : say [] w = w.
Proof. destruct w; unfold say; simpl. by rewrite app_nil_r. Qed.

(** ** Visibility after painting *)

Lemma display_paint value ks w k :
  display (paint value ks w) k
  = if decide (k ∈ ks ∧ is_Some (elementRegistry w !! k))
    then Some value else display w k.
Proof.
  unfold display. rewrite paint_lookup.
  destruct (elementRegistry w !! k) as [c|] eqn:Hc; simpl.
  - destruct (decide (k ∈ ks)); simpl.
    + rewrite (decide_True (P := _ ∧ _)) by (split; [done|eauto]).
      by rewrite lookup_insert_eq.
    + by rewrite (decide_False (P := _ ∧ _)) by tauto.
  - rewrite (decide_False (P := _ ∧ _)) by (intros [_ [? ?]]; done).
    by destruct (decide (k ∈ ks)).
Qed.

Lemma visible_display w k :
  visible w k
  = bool_decide (is_Some (elementRegistry w !! k) ∧ display w k ≠ Some "none").
Proof.
  unfold visible, display.
  destruct (elementRegistry w !! k) as [c|]; simpl.
  - apply bool_decide_ext. split; [eauto|tauto].
  - done.
Qed.

Lemma visible_registered w k :
  visible w k = true → is_Some (elementRegistry w !! k).
Proof. unfold visible. destruct (elementRegistry w !! k); [eauto|done]. Qed.

Lemma visible_paint_inline ks w k :
  visible (paint "inline" ks w) k
  = visible w k
    || bool_decide (k ∈ ks ∧ is_Some (elementRegistry w !! k)).
Proof.
  unfold visible at 1 2. rewrite paint_lookup.
  destruct (elementRegistry w !! k) as [c|] eqn:Hc; simpl.
  - destruct (decide (k ∈ ks)); simpl.
    + rewrite lookup_insert_eq.
      rewrite (bool_decide_eq_true_2 (_ ∧ _)) by (split; [done|eauto]).
      by rewrite orb_true_r.
    + rewrite (bool_decide_eq_false_2 (_ ∧ _)) by tauto.
      by rewrite orb_false_r.
  - rewrite (bool_decide_eq_false_2 (_ ∧ _)) by (intros [_ [? ?]]; done).
    by destruct (decide (k ∈ ks)).
Qed.

Lemma visible_paint_none ks w k :
  visible (paint "none" ks w) k = visible w k && bool_decide (k ∉ ks).
Proof.
  unfold visible at 1 2. rewrite paint_lookup.
  destruct (elementRegistry w !! k) as [c|] eqn:Hc; simpl.
  - destruct (decide (k ∈ ks)); simpl.
    + rewrite lookup_insert_eq.
      rewrite (bool_decide_eq_false_2 (k ∉ ks)) by tauto.
      by rewrite andb_false_r.
    + rewrite (bool_decide_eq_true_2 (k ∉ ks)) by done.
      by rewrite andb_true_r.
  - by destruct (decide (k ∈ ks)).
Qed.

Lemma visible_say messages w k : visible (say messages w) k = visible w k.
Proof. done. Qed.

(** ** The procedures as paintings *)

Section Procedures.
Context `{Metamodel}.

Lemma registered_paint value ks w k :
  is_Some (elementRegistry (paint value ks w) !! k)
  ↔ is_Some (elementRegistry w !! k).
Proof.
  rewrite paint_lookup. case_decide; [|done]. by rewrite fmap_is_Some.
Qed.

Lemma show_paint k w : Dungeon.show k w = (Normal tt, paint "inline" [k] w).
Proof.
  unfold Dungeon.show, bind, ElementRegistry.getGraphics; simpl.
  destruct (elementRegistry w !! k) eqn:Hk; [done|].
  unfold ret. by rewrite paint_unregistered.
Qed.

Lemma hide_paint f w :
  is_Some (elementRegistry w !! ElementRegistry.key f) →
  Dungeon.hide f w = (Normal tt, paint "none" [ElementRegistry.key f] w).
Proof.
  intros [c Hc]. unfold Dungeon.hide, bind, ElementRegistry.getGraphics.
  by rewrite Hc.
Qed.

Lemma hide_throws f w :
  elementRegistry w !! ElementRegistry.key f = None →
  Dungeon.hide f w = (Throw TypeError, w).
Proof.
  intros Hc. unfold Dungeon.hide, bind, ElementRegistry.getGraphics.
  by rewrite Hc.
Qed.

Lemma forEach_show {A} (f : A → string) l w :
  forEach l (λ a, Dungeon.show (f a)) w = (Normal tt, paint "inline" (f <$> l) w).
Proof.
  revert w; induction l as [|a l IH]; intros w; simpl.
  - unfold ret. by rewrite paint_nil.
  - unfold bind. rewrite show_paint, IH. by rewrite <- paint_cons.
Qed.

Lemma forEach_hide l w :
  Forall (λ e, is_Some (elementRegistry w !! ElementRegistry.key (ByElement e))) l →
  forEach l (λ e, Dungeon.hide (ByElement e)) w
  = (Normal tt, paint "none" ((λ e, ElementRegistry.key (ByElement e)) <$> l) w).
Proof.
  revert w; induction l as [|e l IH]; intros w Hall; simpl.
  - unfold ret. by rewrite paint_nil.
  - apply Forall_cons in Hall as [He Hl].
    unfold bind. rewrite hide_paint by done. rewrite IH.
    + by rewrite <- paint_cons.
    + eapply Forall_impl; [exact Hl|]. intros e' He'. by apply registered_paint.
Qed.

Lemma select_pure fn (p : Element → bool) l w :
  Forall (λ e, fn e w = (Normal (p e), w)) l →
  ElementRegistry.select fn l w = (Normal (List.filter p l), w).
Proof.
  induction 1 as [|e l He Hl IH]; simpl; [done|].
  unfold bind. rewrite He, IH. unfold ret. by destruct (p e).
Qed.

Lemma elem_of_elementList w e :
  e ∈ elementList w ↔ ∃ k, elementsOf w !! k = Some e.
Proof.
  unfold elementList. rewrite list_elem_of_fmap. split.
  - intros (c & -> & Hc). apply list_elem_of_fmap in Hc as ([k c'] & -> & Hkc).
    apply elem_of_map_to_list in Hkc. exists k.
    rewrite elementsOf_lookup. simpl in *. by rewrite Hkc.
  - intros [k Hk]. rewrite elementsOf_lookup in Hk.
    destruct (elementRegistry w !! k) as [c|] eqn:Hc; [|done].
    injection Hk as <-. exists c. split; [done|].
    apply list_elem_of_fmap. exists (k, c). split; [done|].
    by apply elem_of_map_to_list.
Qed.

Lemma elem_of_filter_bool {A} (p : A → bool) l a :
  a ∈ List.filter p l ↔ a ∈ l ∧ p a = true.
Proof. rewrite !list_elem_of_In. apply filter_In. Qed.

Lemma keyed_elementsOf w :
  keyed w ↔ map_Forall (λ k e, id (e : Element) = k ∧ k ≠ "") (elementsOf w).
Proof. unfold keyed, elementsOf. by rewrite map_Forall_fmap. Qed.

Lemma startsHaveParent_elementsOf w :
  startsHaveParent w
  ↔ map_Forall (λ _ (e : Element),
      isType e "bpmn:StartEvent" = true → is_Some (parent e)) (elementsOf w).
Proof. unfold startsHaveParent, elementsOf. by rewrite map_Forall_fmap. Qed.

Lemma keyed_key w k (e : Element) :
  keyed w → elementsOf w !! k = Some e → ElementRegistry.key (ByElement e) = k.
Proof.
  rewrite keyed_elementsOf. intros Hw Hk. destruct (Hw k e Hk) as [Hid Hne].
  simpl. rewrite Hid. by rewrite decide_False.
Qed.

Lemma keyed_id w k (e : Element) : keyed w → elementsOf w !! k = Some e → id e = k.
Proof. rewrite keyed_elementsOf. intros Hw Hk. by destruct (Hw k e Hk). Qed.

Lemma elem_of_hiddenKeys w k :
  keyed w →
  k ∈ hiddenKeys w
  ↔ ∃ e : Element, elementsOf w !! k = Some e ∧ isType e "bpmn:Process" = false.
Proof.
  intros Hw. unfold hiddenKeys. rewrite list_elem_of_fmap. split.
  - intros (e & -> & [He Hp]%elem_of_filter_bool).
    apply elem_of_elementList in He as [k He].
    rewrite (keyed_key w k e) by done. exists e. split; [done|].
    by apply negb_true_iff.
  - intros (e & He & Hp). exists e. split.
    + symmetry. by eapply keyed_key.
    + apply elem_of_filter_bool. split.
      * apply elem_of_elementList. eauto.
      * by rewrite Hp.
Qed.

Lemma elem_of_startKeys w k :
  keyed w →
  k ∈ startKeys w
  ↔ ∃ e : Element, elementsOf w !! k = Some e ∧ topLevelStart e = true.
Proof.
  intros Hw. unfold startKeys. rewrite list_elem_of_fmap. split.
  - intros (e & -> & [He Hp]%elem_of_filter_bool).
    apply elem_of_elementList in He as [k He].
    rewrite (keyed_id w k e) by done. eauto.
  - intros (e & He & Hp). exists e. split.
    + symmetry. by eapply keyed_id.
    + apply elem_of_filter_bool. split; [|done].
      apply elem_of_elementList. eauto.
Qed.

Lemma hideAll_paint w :
  keyed w →
  Dungeon.hideAll w = (Normal tt, paint "none" (hiddenKeys w) w).
Proof.
  intros Hw. unfold Dungeon.hideAll, bind, ElementRegistry.filter.
  rewrite (select_pure _ (λ e, negb (isType e "bpmn:Process"))).
  - apply forEach_hide. apply Forall_forall.
    intros e [[k He]%elem_of_elementList _]%elem_of_filter_bool.
    rewrite (keyed_key w k e) by done.
    rewrite elementsOf_lookup in He.
    by destruct (elementRegistry w !! k); eauto.
  - by apply Forall_forall.
Qed.

Lemma isTopLevelStart_pure (e : Element) w :
  (isType e "bpmn:StartEvent" = true → is_Some (parent e)) →
  Dungeon.isTopLevelStart e w = (Normal (topLevelStart e), w).
Proof.
  unfold Dungeon.isTopLevelStart, topLevelStart. intros Hp.
  destruct (isType e "bpmn:StartEvent"); [|done].
  by destruct Hp as [p ->].
Qed.

Lemma isTopLevelStart_throws (e : Element) w :
  isType e "bpmn:StartEvent" = true → parent e = None →
  Dungeon.isTopLevelStart e w = (Throw TypeError, w).
Proof. unfold Dungeon.isTopLevelStart. by intros -> ->. Qed.

Lemma isTopLevelStart_cases (e : Element) w :
  Dungeon.isTopLevelStart e w = (Normal (topLevelStart e), w)
  ∨ Dungeon.isTopLevelStart e w = (Throw TypeError, w).
Proof.
  unfold Dungeon.isTopLevelStart, topLevelStart.
  destruct (isType e "bpmn:StartEvent"); [|by left].
  destruct (parent e); [by left|by right].
Qed.


Lemma start_paint w :
  keyed w → startsHaveParent w →
  Dungeon.start w
  = (Normal tt,
     let hidden := paint "none" (hiddenKeys w) w in
     paint "inline" (startKeys hidden) hidden).
Proof.
  intros Hw Hs. unfold Dungeon.start, bind. rewrite hideAll_paint by done.
  unfold ElementRegistry.filter.
  rewrite (select_pure _ topLevelStart).
  - apply forEach_show.
  - apply Forall_forall. intros e [k He]%elem_of_elementList.
    apply isTopLevelStart_pure. rewrite elementsOf_paint in He.
    apply startsHaveParent_elementsOf in Hs. by apply (Hs k e).
Qed.



Lemma forEach_painting {A} (iteratee : A → Js unit)
    (ks ms : gmap string Element → A → list string) l w :
  (∀ a w, iteratee a w
          = (Normal tt, say (ms (elementsOf w) a)
                            (paint "inline" (ks (elementsOf w) a) w))) →
  forEach l iteratee w
  = (Normal tt, say (l ≫= ms (elementsOf w))
                    (paint "inline" (l ≫= ks (elementsOf w)) w)).
Proof.
  intros Hstep. revert w; induction l as [|a l IH]; intros w; simpl.
  - unfold ret. by rewrite paint_nil, say_nil.
  - unfold bind. rewrite Hstep, IH.
    rewrite elementsOf_say, elementsOf_paint.
    by rewrite paint_say, say_say, <- paint_app.
Qed.

Lemma forEach_show_if {A} (p : A → bool) (f : A → string) l w :
  forEach l (λ a, if p a then Dungeon.show (f a) else ret tt) w
  = (Normal tt, paint "inline" (f <$> List.filter p l) w).
Proof.
  revert w; induction l as [|a l IH]; intros w; simpl.
  - unfold ret. by rewrite paint_nil.
  - unfold bind. destruct (p a); simpl.
    + rewrite show_paint, IH. by rewrite <- paint_cons.
    + unfold ret. by rewrite IH.
Qed.

Lemma get_paint value ks elementId w :
  ElementRegistry.get elementId (paint value ks w)
  = (Normal (elementsOf w !! elementId), paint value ks w).
Proof.
  unfold ElementRegistry.get.
  by rewrite <- elementsOf_lookup, elementsOf_paint.
Qed.

Lemma showElements_paint elementIds w :
  Dungeon.showElements elementIds w
  = (Normal tt,
     say (elementIds ≫= loggedFor (elementsOf w))
         (paint "inline" (elementIds ≫= revealedFor elementIds (elementsOf w)) w)).
Proof.
  unfold Dungeon.showElements.
  apply (forEach_painting _ (revealedFor elementIds) loggedFor).
  clear w. intros elementId w. unfold bind.
  rewrite show_paint, get_paint. unfold revealedFor, loggedFor.
  destruct (elementsOf w !! elementId) as [e|]; [|done].
  rewrite say_nil. destruct (incoming e) as [connections|]; simpl.
  - rewrite forEach_show_if.
    by rewrite (paint_cons "inline" elementId).
  - done.
Qed.

Lemma showNext_walk (connections : list Connection) w :
  forEach connections (λ connection,
    let target := target connection in
    if isType target "bpmn:Gateway" || isType target "bpmn:EndEvent" then
      Dungeon.show (id connection) ;;; Dungeon.show (id target)
    else ret tt) w
  = (Normal tt,
     paint "inline"
       (List.filter decisionPoint connections ≫=
          λ c : Connection, [id c; id (target c)]) w).
Proof.
  revert w; induction connections as [|c l IH]; intros w; simpl.
  - unfold ret. by rewrite paint_nil.
  - unfold bind. unfold decisionPoint at 1.
    destruct (isType (target c) "bpmn:Gateway" || isType (target c) "bpmn:EndEvent");
      simpl.
    + unfold bind. rewrite !show_paint, IH.
      by rewrite (paint_cons _ (id c)), (paint_cons _ (id (target c))).
    + unfold ret. by rewrite IH.
Qed.

Lemma showNext_paint taskId e w :
  elementsOf w !! taskId = Some e →
  Dungeon.showNext taskId w = (Normal tt, paint "inline" (revealedNext e) w).
Proof.
  intros He. unfold Dungeon.showNext, bind, ElementRegistry.get.
  rewrite <- elementsOf_lookup, He. apply showNext_walk.
Qed.

Lemma showNext_throws taskId w :
  elementsOf w !! taskId = None →
  Dungeon.showNext taskId w = (Throw TypeError, w).
Proof.
  intros He. unfold Dungeon.showNext, bind, ElementRegistry.get.
  by rewrite <- elementsOf_lookup, He.
Qed.

End Procedures.

(** ** The visibility store *)

(** C8. Calling [show(id)] twice in succession leaves the same world, hence
    the same visible set, as calling it once; and a [show] on an id that is
    already visible does not change the visible set. A single [show] adds
    the id to the visible set when graphics are registered under it. *)
Theorem show_idempotent (w : World) (elementId : string) :
  (Dungeon.show elementId ;;; Dungeon.show elementId) w = Dungeon.show elementId w
  ∧ (∀ k, visible (exec (Dungeon.show elementId ;;; Dungeon.show elementId) w) k
          = visible (exec (Dungeon.show elementId) w) k)
  ∧ (∀ k, visible (exec (Dungeon.show elementId) w) k
          = visible w k
            || bool_decide (k = elementId ∧ is_Some (elementRegistry w !! k)))
  ∧ (visible w elementId = true →
     ∀ k, visible (exec (Dungeon.show elementId) w) k = visible w k).
Proof.
  assert (Htwice : (Dungeon.show elementId ;;; Dungeon.show elementId) w
                   = Dungeon.show elementId w).
  { unfold bind. rewrite !show_paint. f_equal.
    apply world_eq; [|done..]. intros k. rewrite !paint_lookup.
    case_decide; [|done].
    destruct (elementRegistry w !! k); simpl; [|done].
    by rewrite setAttr_setAttr. }
  assert (Hone : ∀ k, visible (exec (Dungeon.show elementId) w) k
                      = visible w k
                        || bool_decide (k = elementId
                                        ∧ is_Some (elementRegistry w !! k))).
  { intros k. unfold exec. rewrite show_paint; simpl.
    rewrite visible_paint_inline. f_equal. apply bool_decide_ext.
    by rewrite list_elem_of_singleton. }
  split; [done|]. split; [|split; [done|]].
  - intros k. unfold exec. by rewrite Htwice.
  - intros Hvis k. rewrite Hone.
    destruct (visible w k) eqn:Hk; [done|]. simpl.
    apply bool_decide_eq_false. intros [-> _]. congruence.
Qed.

(** C4 (amended). [show] never throws: on an id without graphics it does
    nothing at all, and in particular logs nothing; the failed lookup that
    is logged is the one of [showElements], which on such an id logs its
    line, changes nothing else and returns. [hide] returns normally on
    every key that has graphics, and it is given no other: on a registry
    that files each element under its own id, every element [hideAll] can
    pass to it has graphics, and [hideAll] returns normally. *)
Theorem show_skips_hide_is_fed `{Metamodel} (w : World) (elementId : string) :
  fst (Dungeon.show elementId w) = Normal tt
  ∧ (elementRegistry w !! elementId = None →
     Dungeon.show elementId w = (Normal tt, w)
     ∧ Dungeon.showElements [elementId] w
       = (Normal tt, say [notFound elementId] w))
  ∧ (∀ filter, is_Some (elementRegistry w !! ElementRegistry.key filter) →
       fst (Dungeon.hide filter w) = Normal tt)
  ∧ (keyed w →
     fst (Dungeon.hideAll w) = Normal tt
     ∧ ∀ e : Element, e ∈ elementList w →
         is_Some (elementRegistry w !! ElementRegistry.key (ByElement e))).
Proof.
  split; [by rewrite show_paint|]. split; [|split].
  - intros Hnone. split; [rewrite show_paint; by rewrite paint_unregistered|].
    rewrite showElements_paint. simpl.
    unfold revealedFor, loggedFor. rewrite elementsOf_lookup, Hnone. simpl.
    by rewrite paint_unregistered.
  - intros filter Hreg. by rewrite hide_paint.
  - intros Hw. split; [by rewrite hideAll_paint|].
    intros e [k He]%elem_of_elementList.
    rewrite (keyed_key w k e) by done.
    rewrite elementsOf_lookup in He.
    by destruct (elementRegistry w !! k); eauto.
Qed.

(** C4 (as stated) fails on the sample diagram: nothing is registered
    under [missing], and [show] on it returns without a word, the console
    staying empty, where the claim has the failed lookup logged. (The
    same id given to [showElements] is logged.) *)
Lemma show_missing_is_silent :
  elementRegistry Sample.hidden !! "missing" = None
  ∧ Dungeon.show "missing" Sample.hidden = (Normal tt, Sample.hidden)
  ∧ console (exec (Dungeon.show "missing") Sample.hidden) = []
  ∧ console (exec (Dungeon.showElements ["missing"]) Sample.hidden)
    = ["element with id missing not found!"].
Proof.
  assert (Hshow : Dungeon.show "missing" Sample.hidden = (Normal tt, Sample.hidden)).
  { rewrite show_paint. by rewrite paint_unregistered. }
  split; [reflexivity|]. split; [done|]. split.
  - unfold exec. rewrite Hshow. vm_compute. reflexivity.
  - unfold exec. rewrite showElements_paint. vm_compute. reflexivity.
Qed.

(** ** The viewport follower *)

(** C6. [scrollTo(id)] on a registered element logs, resets the zoom and
    then scrolls by [dx = -x + 75] and [dy = -y + 75], negation and
    addition being those of doubles, in this order and with no other
    camera call; on an id that is not registered it returns normally and
    leaves the world, camera included, as it was. This holds whatever the
    runtime's formatting of numbers in the logged line. *)
Theorem scrollTo_spec `{Runtime} (w : World) (elementId : string) :
  Dungeon.scrollTo elementId w
  = match elementsOf w !! elementId with
    | Some el =>
        let dx := (- x el + 75)%float in
        let dy := (- y el + 75)%float in
        (Normal tt,
         mkWorld (elementRegistry w)
                 (zoomScroll w ++ [CallReset; CallScroll dx dy])
                 (console w ++ ["scrollTo " +:+ elementId +:+ " position: "
                                +:+ toString dx +:+ "|" +:+ toString dy]))
    | None => (Normal tt, w)
    end.
Proof.
  unfold Dungeon.scrollTo, bind, ElementRegistry.get.
  rewrite <- elementsOf_lookup.
  destruct (elementsOf w !! elementId) as [el|]; [|done].
  unfold Console.log, ZoomScroll.reset, ZoomScroll.scroll, ZoomScroll.call, modify.
  simpl. by rewrite <- app_assoc.
Qed.

(** On the sample, task [B] lies at (300, 80): the camera is reset and
    scrolled by (-225, -5), and the line logged says so. Fractions are
    kept, and a sum that no double holds is rounded as doubles are. *)
Example scrollTo_sample :
  let w := exec (@Dungeon.scrollTo sampleRuntime "B") Sample.imported in
  zoomScroll w = [CallReset; CallScroll (-225) (-5)]
  ∧ console w = ["scrollTo B position: -225|-5"]
  ∧ (- 10.5 + 75 = 64.5)%float
  ∧ (- (-9007199254740992) + 75 = 9007199254741068)%float.
Proof. vm_compute. done. Qed.

(** ** The shape.added listener *)

(** C10. On an added shape whose type tag is ['label'] the listener
    returns at once: the graphics are left as they were, whatever types
    the label's business object is an instance of. *)
Theorem shapeAdded_label `{Metamodel} (element : Element) (gfx : Gfx) :
  type element = "label" → Dungeon.shapeAdded element gfx = gfx.
Proof.
  intros Hlabel. unfold Dungeon.shapeAdded. by rewrite decide_True.
Qed.

(** The label of a start event, whose business object is a start event,
    gets no badge; the start event itself gets one. *)
Lemma shapeAdded_label_witness :
  let label := Sample.node Sample.labelA Sample.process 170 140 [] [] in
  @isType bpmn label "bpmn:StartEvent" = true
  ∧ @Dungeon.shapeAdded bpmn label (mkGfx ∅ [Visual "text"]) = mkGfx ∅ [Visual "text"].
Proof.
  split; [reflexivity|]. apply (@shapeAdded_label bpmn). reflexivity.
Defined.

Example shapeAdded_start_event :
  children (@Dungeon.shapeAdded bpmn
              (Sample.node Sample.startA Sample.process 180 100 [] [])
              (mkGfx ∅ [Visual "circle"]))
  = [Visual "circle";
     Image "resources/green-diamond.png" 0 0 100 80].
Proof. reflexivity. Qed.

Example shapeAdded_task :
  children (@Dungeon.shapeAdded bpmn
              (Sample.node Sample.taskB Sample.process 300 80 [] [])
              (mkGfx ∅ [Visual "rect"]))
  = [Image "resources/scroll.png" (-20) (-20) 140 120;
     Visual "rect"].
Proof. reflexivity. Qed.

(** ** The walker *)

Section Walk.
Context `{Metamodel}.

Lemma keyed_paint value ks w : keyed w → keyed (paint value ks w).
Proof. rewrite !keyed_elementsOf. by rewrite elementsOf_paint. Qed.

Lemma startsHaveParent_paint value ks w :
  startsHaveParent w → startsHaveParent (paint value ks w).
Proof. rewrite !startsHaveParent_elementsOf. by rewrite elementsOf_paint. Qed.

(** What is visible after [hideAll]: the containers that were. *)
Lemma visible_hideAll w k c :
  keyed w → elementRegistry w !! k = Some c →
  visible (paint "none" (hiddenKeys w) w) k
  = visible w k && isType (element c) "bpmn:Process".
Proof.
  intros Hw Hc. rewrite visible_paint_none. f_equal.
  assert (He : elementsOf w !! k = Some (element c))
    by (by rewrite elementsOf_lookup, Hc).
  destruct (isType (element c) "bpmn:Process") eqn:Hp.
  - apply bool_decide_eq_true. rewrite elem_of_hiddenKeys by done.
    intros (e & He' & Hp'). congruence.
  - apply bool_decide_eq_false. intros Hnot. apply Hnot.
    rewrite elem_of_hiddenKeys by done. eauto.
Qed.

(** What is visible after [start]: the top-level start events, and the
    containers that were visible. *)
Lemma visible_start w k c :
  keyed w → startsHaveParent w → elementRegistry w !! k = Some c →
  visible (exec Dungeon.start w) k
  = topLevelStart (element c)
    || (isType (element c) "bpmn:Process" && visible w k).
Proof.
  intros Hw Hs Hc. unfold exec. rewrite start_paint by done. simpl.
  rewrite visible_paint_inline, (visible_hideAll w k c) by done.
  rewrite orb_comm, (andb_comm (visible w k)). f_equal.
  assert (He : elementsOf w !! k = Some (element c))
    by (by rewrite elementsOf_lookup, Hc).
  destruct (topLevelStart (element c)) eqn:Ht.
  - apply bool_decide_eq_true. split.
    + rewrite elem_of_startKeys by (by apply keyed_paint).
      rewrite elementsOf_paint. eauto.
    + apply registered_paint. eauto.
  - apply bool_decide_eq_false. intros [Hin _].
    rewrite elem_of_startKeys in Hin by (by apply keyed_paint).
    rewrite elementsOf_paint in Hin. destruct Hin as (e & He' & Ht').
    congruence.
Qed.

(** C1 (amended). On a registry that files each element under its own id
    and whose start events all have a parent, [hideAll()] followed by
    [start()] returns normally; afterwards a registered element is visible
    exactly when it is a start event whose parent's type is the root
    Process, or when it is a Process container that was visible before
    ([hideAll] leaves the containers alone). Nothing else is visible. *)
Theorem start_reveals_top_level_starts (w : World) :
  keyed w → startsHaveParent w →
  ∃ w', (Dungeon.hideAll ;;; Dungeon.start) w = (Normal tt, w')
    ∧ (∀ k c, elementRegistry w !! k = Some c →
         visible w' k
         = topLevelStart (element c)
           || (isType (element c) "bpmn:Process" && visible w k))
    ∧ (∀ k, elementRegistry w !! k = None → visible w' k = false).
Proof.
  intros Hw Hs.
  set (hidden := paint "none" (hiddenKeys w) w).
  assert (Hrun : (Dungeon.hideAll ;;; Dungeon.start) w
                 = (Normal tt, exec Dungeon.start hidden)).
  { unfold bind, exec. rewrite hideAll_paint by done. fold hidden.
    by rewrite (start_paint hidden)
      by (by apply keyed_paint || by apply startsHaveParent_paint). }
  exists (exec Dungeon.start hidden). split; [done|]. split.
  - intros k c Hc.
    assert (Hc' : elementRegistry hidden !! k
                  = Some (if decide (k ∈ hiddenKeys w)
                          then Graphics.setAttr "display" "none" c else c)).
    { unfold hidden. rewrite paint_lookup, Hc. by case_decide. }
    rewrite (visible_start hidden k _ (keyed_paint _ _ _ Hw)
               (startsHaveParent_paint _ _ _ Hs) Hc').
    assert (Hel : element (if decide (k ∈ hiddenKeys w)
                           then Graphics.setAttr "display" "none" c else c)
                  = element c) by (by case_decide).
    rewrite Hel. unfold hidden. rewrite (visible_hideAll w k c) by done.
    by destruct (isType (element c) "bpmn:Process"), (visible w k),
               (topLevelStart (element c)).
  - intros k Hk. unfold exec.
    rewrite (start_paint hidden)
      by (by apply keyed_paint || by apply startsHaveParent_paint).
    simpl. unfold visible, hidden. rewrite !paint_lookup, Hk.
    by repeat case_decide.
Qed.

End Walk.

(** The sample diagram meets the two conditions; after [hideAll] and
    [start] its start event [A] and the label of [A] are visible, and the
    start event [N] nested in the sub-process is not. *)
Lemma start_reveals_top_level_starts_witness :
  ∃ w', (@Dungeon.hideAll bpmn ;;; @Dungeon.start bpmn) Sample.imported = (Normal tt, w')
    ∧ (∀ k c, elementRegistry Sample.imported !! k = Some c →
         visible w' k
         = @topLevelStart bpmn (element c)
           || (@isType bpmn (element c) "bpmn:Process" && visible Sample.imported k))
    ∧ (∀ k, elementRegistry Sample.imported !! k = None → visible w' k = false).
Proof.
  apply (@start_reveals_top_level_starts bpmn Sample.imported).
  - unfold keyed. apply (bool_decide_unpack _). vm_compute. exact I.
  - unfold startsHaveParent. apply (bool_decide_unpack _). vm_compute. exact I.
Defined.

(** C1 (as stated) fails on the sample diagram: after [hideAll] and
    [start] the container [Process_1], which is no start event, is
    visible; and had the host shown it before, its [display] is still
    ['inline'] afterwards. *)
Lemma start_keeps_process_visible :
  let run := @Dungeon.hideAll bpmn ;;; @Dungeon.start bpmn in
  visible (exec run Sample.imported) "Process_1" = true
  ∧ (@topLevelStart bpmn <$> elementsOf Sample.imported !! "Process_1") = Some false
  ∧ Sample.visibleIds (exec run Sample.imported) = ["A_label"; "A"; "Process_1"]
  ∧ display (exec run (exec (Dungeon.show "Process_1") Sample.imported)) "Process_1"
    = Some "inline".
Proof. vm_compute. done. Qed.

(** C5. [showNext] has no guard against an id that is not registered: it
    throws a TypeError, where [showElements] logs the unknown id, skips it
    and goes on to reveal the ids that follow. *)
Theorem showNext_unknown_throws :
  @Dungeon.showNext bpmn "missing" Sample.hidden = (Throw TypeError, Sample.hidden)
  ∧ fst (Dungeon.showElements ["missing"; "A"] Sample.hidden) = Normal tt
  ∧ console (exec (Dungeon.showElements ["missing"; "A"]) Sample.hidden)
    = ["element with id missing not found!"]
  ∧ Sample.visibleIds (exec (Dungeon.showElements ["missing"; "A"]) Sample.hidden)
    = ["A"; "Process_1"].
Proof. vm_compute. done. Qed.

(** [showElements] never throws, whatever ids it is given. *)
Lemma showElements_returns elementIds w :
  fst (Dungeon.showElements elementIds w) = Normal tt.
Proof. by rewrite showElements_paint. Qed.

(** The ids [showElements] reveals: those it is given, and those of the
    incoming connections, of the registered elements among them, whose
    source it is given too. *)
Lemma elem_of_revealed (ids given : list string) (elements : gmap string Element) k :
  k ∈ ids ≫= revealedFor given elements
  ↔ k ∈ ids
    ∨ ∃ elementId (e : Element) connections (c : Connection),
        elementId ∈ ids ∧ elements !! elementId = Some e
        ∧ incoming e = Some connections ∧ c ∈ connections
        ∧ id c = k ∧ id (source c) ∈ given.
Proof.
  rewrite list_elem_of_bind. unfold revealedFor. split.
  - intros (elementId & Hk & Hin). apply elem_of_cons in Hk as [->|Hk]; [by left|].
    right. destruct (elements !! elementId) as [e|] eqn:He;
      [|by apply elem_of_nil in Hk].
    apply list_elem_of_fmap in Hk as (c & -> & [Hc Hs]%elem_of_filter_bool).
    destruct (incoming e) as [connections|] eqn:Hi;
      [|by apply elem_of_nil in Hc].
    exists elementId, e, connections, c.
    by apply bool_decide_eq_true in Hs.
  - intros [Hin|(elementId & e & connections & c & Hin & He & Hi & Hc & <- & Hs)].
    + exists k. split; [apply list_elem_of_here|done].
    + exists elementId. split; [|done]. rewrite He, Hi.
      apply list_elem_of_further, list_elem_of_fmap. exists c. split; [done|].
      apply elem_of_filter_bool. split; [done|]. by apply bool_decide_eq_true.
Qed.




(** On the sample in its Reset state, revealing [A] and [B] draws the
    flow between them and none of the flows that leave [B]. *)
Example showElements_frontier :
  Sample.visibleIds (exec (Dungeon.showElements ["A"; "B"]) Sample.hidden)
  = ["A"; "f_AB"; "B"; "Process_1"].
Proof. vm_compute. done. Qed.

(** C7. For every collection of ids and every permutation of it,
    [showElements] returns normally on both and leaves the same registry,
    hence the same visible set (the console may list unknown ids in a
    different order). *)
Theorem showElements_order_independent (w : World) (ids ids' : list string) :
  ids ≡ₚ ids' →
  fst (Dungeon.showElements ids w) = Normal tt
  ∧ fst (Dungeon.showElements ids' w) = Normal tt
  ∧ elementRegistry (exec (Dungeon.showElements ids) w)
    = elementRegistry (exec (Dungeon.showElements ids') w)
  ∧ ∀ k, visible (exec (Dungeon.showElements ids) w) k
         = visible (exec (Dungeon.showElements ids') w) k.
Proof.
  intros Hperm.
  assert (Hsame : ∀ k, k ∈ ids ≫= revealedFor ids (elementsOf w)
                       ↔ k ∈ ids' ≫= revealedFor ids' (elementsOf w)).
  { intros k. rewrite !elem_of_revealed.
    assert (Hmem : ∀ i, i ∈ ids ↔ i ∈ ids') by (intros i; by rewrite Hperm).
    rewrite Hmem. apply or_iff_compat_l.
    split; intros (i & e & cs & c & Hi & He & Hin & Hc & Hk & Hs);
      exists i, e, cs, c; by rewrite ?Hmem in *|| by rewrite <- ?Hmem in *. }
  assert (Hreg : elementRegistry (exec (Dungeon.showElements ids) w)
                 = elementRegistry (exec (Dungeon.showElements ids') w)).
  { unfold exec. rewrite !showElements_paint; simpl.
    apply map_eq. intros k.
    pose proof (paint_lookup "inline"
      (ids ≫= revealedFor ids (elementsOf w)) w k) as H1.
    pose proof (paint_lookup "inline"
      (ids' ≫= revealedFor ids' (elementsOf w)) w k) as H2.
    simpl in H1, H2. rewrite H1, H2.
    destruct (decide (k ∈ ids ≫= revealedFor ids (elementsOf w))) as [Hin|Hnin].
    - by rewrite decide_True by (by apply Hsame).
    - by rewrite decide_False by (by rewrite <- Hsame). }
  split; [apply showElements_returns|]. split; [apply showElements_returns|].
  split; [done|]. intros k. unfold visible. by rewrite Hreg.
Qed.

(** On the sample in its Reset state, for two orders of [A], [B] and an
    unknown id. *)
Lemma showElements_order_independent_witness :
  fst (Dungeon.showElements ["A"; "missing"; "B"] Sample.hidden) = Normal tt
  ∧ fst (Dungeon.showElements ["B"; "A"; "missing"] Sample.hidden) = Normal tt
  ∧ elementRegistry (exec (Dungeon.showElements ["A"; "missing"; "B"]) Sample.hidden)
    = elementRegistry (exec (Dungeon.showElements ["B"; "A"; "missing"]) Sample.hidden)
  ∧ ∀ k, visible (exec (Dungeon.showElements ["A"; "missing"; "B"]) Sample.hidden) k
         = visible (exec (Dungeon.showElements ["B"; "A"; "missing"]) Sample.hidden) k.
Proof.
  apply (showElements_order_independent Sample.hidden
           ["A"; "missing"; "B"] ["B"; "A"; "missing"]).
  by_evaluation.
Defined.

Section Advance.
Context `{Metamodel}.

Lemma elem_of_revealedNext (e : Element) k :
  k ∈ revealedNext e
  ↔ ∃ c : Connection,
      c ∈ outgoing e
      ∧ isType (target c) "bpmn:Gateway" || isType (target c) "bpmn:EndEvent" = true
      ∧ (k = id c ∨ k = id (target c)).
Proof.
  unfold revealedNext. rewrite list_elem_of_bind. split.
  - intros (c & Hk & [Hc Hd]%elem_of_filter_bool). exists c.
    split; [done|]. split; [done|].
    apply elem_of_cons in Hk as [->|Hk]; [by left|].
    apply list_elem_of_singleton in Hk as ->. by right.
  - intros (c & Hc & Hd & Hk). exists c. split.
    + destruct Hk as [->| ->].
      * apply list_elem_of_here.
      * apply list_elem_of_further, list_elem_of_here.
    + by apply elem_of_filter_bool.
Qed.

(** C3. On a registered id (every revealed id is one) [showNext] returns
    normally; it makes visible each outgoing connection whose target is a
    Gateway or an EndEvent, together with that target, and an id that was
    hidden is visible afterwards only if it is such a connection or such a
    target: connections to other targets, plain tasks among them, and
    those targets stay hidden. *)
Theorem showNext_reveals_decision_points (w : World) (taskId : string) (e : Element) :
  elementsOf w !! taskId = Some e →
  ∃ w', Dungeon.showNext taskId w = (Normal tt, w')
    ∧ (∀ c : Connection,
         c ∈ outgoing e →
         isType (target c) "bpmn:Gateway" || isType (target c) "bpmn:EndEvent" = true →
         (is_Some (elementRegistry w !! id c) → visible w' (id c) = true)
         ∧ (is_Some (elementRegistry w !! id (target c)) →
            visible w' (id (target c)) = true))
    ∧ (∀ k, visible w k = false →
         (visible w' k = true
          ↔ is_Some (elementRegistry w !! k)
            ∧ ∃ c : Connection,
                c ∈ outgoing e
                ∧ isType (target c) "bpmn:Gateway"
                  || isType (target c) "bpmn:EndEvent" = true
                ∧ (k = id c ∨ k = id (target c)))).
Proof.
  intros He. exists (paint "inline" (revealedNext e) w).
  split; [by apply showNext_paint|]. split.
  - intros c Hc Hd. split; intros Hreg; rewrite visible_paint_inline;
      apply orb_true_iff; right; apply bool_decide_eq_true; (split; [|done]);
      apply elem_of_revealedNext; exists c; eauto.
  - intros k Hhid. rewrite visible_paint_inline, Hhid; simpl.
    rewrite bool_decide_eq_true, elem_of_revealedNext. tauto.
Qed.

End Advance.

(** On the sample in its Reset state, [showNext] on task [B] reveals the
    flows to the end event [C] and to the gateway [G] with their targets,
    and neither the flow to the plain task [D] nor [D]. *)
Lemma showNext_reveals_decision_points_witness :
  ∃ w', @Dungeon.showNext bpmn "B" Sample.hidden = (Normal tt, w')
    ∧ (∀ c : Connection,
         c ∈ outgoing Sample.elementB →
         @isType bpmn (target c) "bpmn:Gateway"
         || @isType bpmn (target c) "bpmn:EndEvent" = true →
         (is_Some (elementRegistry Sample.hidden !! id c) → visible w' (id c) = true)
         ∧ (is_Some (elementRegistry Sample.hidden !! id (target c)) →
            visible w' (id (target c)) = true))
    ∧ (∀ k, visible Sample.hidden k = false →
         (visible w' k = true
          ↔ is_Some (elementRegistry Sample.hidden !! k)
            ∧ ∃ c : Connection,
                c ∈ outgoing Sample.elementB
                ∧ @isType bpmn (target c) "bpmn:Gateway"
                  || @isType bpmn (target c) "bpmn:EndEvent" = true
                ∧ (k = id c ∨ k = id (target c)))).
Proof.
  apply (@showNext_reveals_decision_points bpmn Sample.hidden "B" Sample.elementB).
  vm_compute. reflexivity.
Defined.

Example showNext_from_B :
  Sample.visibleIds (exec (@Dungeon.showNext bpmn "B") Sample.hidden)
  = ["G"; "C"; "f_BG"; "f_BC"; "Process_1"].
Proof. vm_compute. done. Qed.

(** ** No dangling edge *)

Section Invariant.
Context `{Metamodel}.

Lemma elem_of_connectionsOf w (c : Connection) :
  c ∈ connectionsOf w
  ↔ ∃ k (e : Element), elementsOf w !! k = Some e ∧ c ∈ adjacent e.
Proof.
  unfold connectionsOf. rewrite list_elem_of_bind. split.
  - intros (e & Hc & [k He]%elem_of_elementList). eauto.
  - intros (k & e & He & Hc). exists e. split; [done|].
    apply elem_of_elementList. eauto.
Qed.

Lemma connectionsOf_ext w w' (c : Connection) :
  elementsOf w' = elementsOf w → c ∈ connectionsOf w' ↔ c ∈ connectionsOf w.
Proof. intros Heq. by rewrite !elem_of_connectionsOf, Heq. Qed.



(** Well-formedness is a property of the elements, not of their graphics. *)
Lemma wellFormed_ext w w' :
  elementsOf w' = elementsOf w → wellFormed w → wellFormed w'.
Proof.
  intros Heq (Hk & Hs & Ho & Hc). split; [|split; [|split]].
  - apply keyed_elementsOf. rewrite Heq. by apply keyed_elementsOf.
  - apply startsHaveParent_elementsOf. rewrite Heq.
    by apply startsHaveParent_elementsOf.
  - by rewrite Heq.
  - rewrite Forall_forall in Hc. apply Forall_forall. intros c Hin.
    apply (connectionsOf_ext w w' c Heq) in Hin.
    destruct (Hc c Hin) as (Hsrc & Hkind & Hothers). rewrite Heq.
    split; [done|]. split; [done|].
    rewrite Forall_forall in Hothers. apply Forall_forall. intros c' Hin'.
    apply Hothers. by apply (connectionsOf_ext w w' c' Heq).
Qed.

(** The walker's calls change graphics only. *)
Lemma elementsOf_perform w call :
  wellFormed w → elementsOf (exec (perform call) w) = elementsOf w.
Proof.
  intros (Hk & Hs & _). unfold exec. destruct call as [|ids|t]; simpl.
  - rewrite start_paint by done. simpl. by rewrite !elementsOf_paint.
  - rewrite showElements_paint. simpl.
    by rewrite elementsOf_say, elementsOf_paint.
  - destruct (elementsOf w !! t) as [e|] eqn:He.
    + rewrite (showNext_paint t e) by done. simpl. by rewrite elementsOf_paint.
    + by rewrite showNext_throws.
Qed.

(** A permitted call on a well-formed graph returns normally. *)
Lemma permitted_returns w call :
  wellFormed w → permitted w call → fst (perform call w) = Normal tt.
Proof.
  intros (Hk & Hs & _) Hp. destruct call as [|ids|t]; simpl in *.
  - by rewrite start_paint.
  - apply showElements_returns.
  - apply visible_registered in Hp as [c Hc].
    by rewrite (showNext_paint t (element c))
      by (by rewrite elementsOf_lookup, Hc).
Qed.


(** A well-formed graph is connected. *)
Lemma wellFormed_connected w : wellFormed w → connected w.
Proof.
  intros (Hk & _ & Ho & Hc). split; [done|]. split; [done|].
  eapply Forall_impl; [exact Hc|]. intros c (Hsrc & Hkind & Hothers).
  split; [done|]. split; [done|].
  eapply Forall_impl; [exact Hothers|]. intros c' [Hsame Htarget].
  split; [done|]. by intros _.
Qed.












End Invariant.



(** * Further properties of the walker *)

(** ** Paintings compared *)

Lemma setAttr_override name value value' c :
  Graphics.setAttr name value (Graphics.setAttr name value' c)
  = Graphics.setAttr name value c.
Proof. unfold Graphics.setAttr; simpl. by rewrite insert_insert_eq. Qed.

(** A painting depends on the set of its keys only. *)
Lemma paint_ext value ks ks' w :
  (∀ k, k ∈ ks ↔ k ∈ ks') → paint value ks w = paint value ks' w.
Proof.
  intros Hsame. apply world_eq; [|done..]. intros k. rewrite !paint_lookup.
  destruct (decide (k ∈ ks)) as [Hin|Hnin].
  - by rewrite decide_True by (by apply Hsame).
  - by rewrite decide_False by (by rewrite <- Hsame).
Qed.

(** The last painting of a key wins. *)
Lemma paint_override value value' ks w :
  paint value ks (paint value' ks w) = paint value ks w.
Proof.
  apply world_eq; [|done..]. intros k. rewrite !paint_lookup.
  case_decide; [|done].
  destruct (elementRegistry w !! k); simpl; [|done].
  by rewrite setAttr_override.
Qed.

Lemma paint_twice value ks w :
  paint value ks (paint value ks w) = paint value ks w.
Proof. apply paint_override. Qed.

Lemma paint_swap value a b w :
  paint value [b] (paint value [a] w) = paint value [a] (paint value [b] w).
Proof.
  rewrite <- !paint_app. apply paint_ext. intros k.
  rewrite !elem_of_app. tauto.
Qed.

(** ** [show] and [hide] *)

(** X1. On an id that has no graphics in the registry, [show] returns
    normally and leaves the world exactly as it was. *)
Theorem show_unregistered_noop (w : World) (elementId : string) :
  elementRegistry w !! elementId = None →
  Dungeon.show elementId w = (Normal tt, w).
Proof. intros Hnone. rewrite show_paint. by rewrite paint_unregistered. Qed.

Lemma show_unregistered_noop_witness :
  Dungeon.show "missing" Sample.hidden = (Normal tt, Sample.hidden).
Proof. apply (show_unregistered_noop Sample.hidden "missing"). reflexivity. Defined.

(** X2. [show] touches one attribute of one graphics object: it returns
    normally; the console, the camera, the elements and every other
    container stay as they were; and under the id itself the element, the
    children and every attribute but [display] are kept, [display]
    becoming ['inline']. *)
Theorem show_frame (w : World) (elementId : string) :
  let w' := exec (Dungeon.show elementId) w in
  fst (Dungeon.show elementId w) = Normal tt
  ∧ console w' = console w
  ∧ zoomScroll w' = zoomScroll w
  ∧ elementsOf w' = elementsOf w
  ∧ (∀ k, k ≠ elementId → elementRegistry w' !! k = elementRegistry w !! k)
  ∧ (∀ c, elementRegistry w !! elementId = Some c →
       ∃ c', elementRegistry w' !! elementId = Some c'
         ∧ element c' = element c
         ∧ children (gfx c') = children (gfx c)
         ∧ attrs (gfx c') !! "display" = Some "inline"
         ∧ ∀ a, a ≠ "display" → attrs (gfx c') !! a = attrs (gfx c) !! a).
Proof.
  unfold exec. rewrite show_paint. simpl.
  split; [done|]. split; [done|]. split; [done|].
  split; [apply elementsOf_paint|]. split.
  - intros k Hne.
    pose proof (paint_lookup "inline" [elementId] w k) as Hk. simpl in Hk.
    rewrite Hk. rewrite decide_False; [done|].
    by rewrite list_elem_of_singleton.
  - intros c Hc.
    pose proof (paint_lookup "inline" [elementId] w elementId) as Hk.
    simpl in Hk. rewrite decide_True in Hk by apply list_elem_of_here.
    rewrite Hc in Hk. simpl in Hk.
    exists (Graphics.setAttr "display" "inline" c).
    split; [done|]. split; [done|]. split; [done|]. split.
    + simpl. by rewrite lookup_insert_eq.
    + intros a Ha. simpl. by rewrite lookup_insert_ne.
Qed.

(** X3. [hide] either hides or throws: on a key with graphics it returns
    normally, the key is not visible afterwards and no other container
    changes; on a key without graphics it throws a TypeError and leaves the
    world exactly as it was. *)
Theorem hide_hides_or_throws (w : World) (elementId : Filter) :
  let k := ElementRegistry.key elementId in
  (is_Some (elementRegistry w !! k) →
     fst (Dungeon.hide elementId w) = Normal tt
     ∧ visible (exec (Dungeon.hide elementId) w) k = false
     ∧ display (exec (Dungeon.hide elementId) w) k = Some "none"
     ∧ ∀ k', k' ≠ k →
         elementRegistry (exec (Dungeon.hide elementId) w) !! k'
         = elementRegistry w !! k')
  ∧ (elementRegistry w !! k = None →
     Dungeon.hide elementId w = (Throw TypeError, w)).
Proof.
  simpl. split; [|apply hide_throws].
  intros Hreg. unfold exec. rewrite hide_paint by done. simpl.
  split; [done|]. split; [|split].
  - rewrite visible_paint_none.
    rewrite (bool_decide_eq_false_2 (_ ∉ _)); [apply andb_false_r|].
    intros Hnot. apply Hnot, list_elem_of_here.
  - rewrite display_paint. rewrite decide_True; [done|].
    split; [apply list_elem_of_here|done].
  - intros k' Hne.
    pose proof (paint_lookup "none" [ElementRegistry.key elementId] w k') as Hk.
    simpl in Hk. rewrite Hk. rewrite decide_False; [done|].
    by rewrite list_elem_of_singleton.
Qed.

(** X4. Of a [show] and a [hide] of the same id the last one wins:
    [show] then [hide] is [hide] (both throw on an id without graphics),
    and on an id with graphics [hide] then [show] is [show]. *)
Theorem show_hide_last_wins (w : World) (elementId : string) :
  (Dungeon.show elementId ;;; Dungeon.hide (ById elementId)) w
  = Dungeon.hide (ById elementId) w
  ∧ (is_Some (elementRegistry w !! elementId) →
     (Dungeon.hide (ById elementId) ;;; Dungeon.show elementId) w
     = Dungeon.show elementId w).
Proof.
  split.
  - unfold bind. rewrite show_paint.
    destruct (elementRegistry w !! elementId) as [c|] eqn:Hc.
    + assert (Hreg : is_Some (elementRegistry w !! ElementRegistry.key (ById elementId)))
        by (simpl; rewrite Hc; eauto).
      rewrite (hide_paint (ById elementId) (paint "inline" [elementId] w))
        by (by apply registered_paint).
      rewrite (hide_paint (ById elementId) w) by done.
      simpl. by rewrite paint_override.
    + rewrite paint_unregistered by done. done.
  - intros Hreg. unfold bind. rewrite hide_paint by done.
    rewrite !show_paint. simpl. by rewrite paint_override.
Qed.

(** X5. Two [show]s commute: the world they leave does not depend on
    their order. *)
Theorem show_commute (w : World) (a b : string) :
  (Dungeon.show a ;;; Dungeon.show b) w = (Dungeon.show b ;;; Dungeon.show a) w.
Proof. unfold bind. rewrite !show_paint. by rewrite paint_swap. Qed.

(** ** [hideAll] and [start] *)

Section Reset.
Context `{Metamodel}.

Lemma hiddenKeys_paint value ks w k :
  keyed w → k ∈ hiddenKeys (paint value ks w) ↔ k ∈ hiddenKeys w.
Proof.
  intros Hw. rewrite !elem_of_hiddenKeys by (done || by apply keyed_paint).
  by rewrite elementsOf_paint.
Qed.

Lemma startKeys_paint value ks w k :
  keyed w → k ∈ startKeys (paint value ks w) ↔ k ∈ startKeys w.
Proof.
  intros Hw. rewrite !elem_of_startKeys by (done || by apply keyed_paint).
  by rewrite elementsOf_paint.
Qed.

(** X6. On a registry that files each element under its own id,
    [hideAll] returns normally; afterwards every registered element that
    is not a Process container has [display] ['none'], every Process
    container is exactly as it was, and the elements, the console and the
    camera are untouched. *)
Theorem hideAll_spares_containers (w : World) :
  keyed w →
  ∃ w', Dungeon.hideAll w = (Normal tt, w')
    ∧ (∀ k c, elementRegistry w !! k = Some c →
         isType (element c) "bpmn:Process" = false →
         display w' k = Some "none" ∧ visible w' k = false)
    ∧ (∀ k c, elementRegistry w !! k = Some c →
         isType (element c) "bpmn:Process" = true →
         elementRegistry w' !! k = Some c)
    ∧ elementsOf w' = elementsOf w
    ∧ console w' = console w
    ∧ zoomScroll w' = zoomScroll w.
Proof.
  intros Hw. exists (paint "none" (hiddenKeys w) w).
  split; [by apply hideAll_paint|].
  split; [|split; [|split; [apply elementsOf_paint|done]]].
  - intros k c Hc Hp.
    assert (Hin : k ∈ hiddenKeys w).
    { apply elem_of_hiddenKeys; [done|]. exists (element c).
      by rewrite elementsOf_lookup, Hc. }
    split.
    + rewrite display_paint. rewrite decide_True; [done|]. by rewrite Hc.
    + rewrite (visible_hideAll w k c) by done. by rewrite Hp, andb_false_r.
  - intros k c Hc Hp. rewrite paint_lookup. rewrite decide_False; [done|].
    intros (e & He & Hp')%elem_of_hiddenKeys; [|done].
    rewrite elementsOf_lookup, Hc in He. simpl in He. congruence.
Qed.

(** X7. [hideAll] is idempotent: calling it twice leaves the same world,
    with the same completion, as calling it once. *)
Theorem hideAll_idempotent (w : World) :
  keyed w →
  (Dungeon.hideAll ;;; Dungeon.hideAll) w = Dungeon.hideAll w.
Proof.
  intros Hw. unfold bind. rewrite hideAll_paint by done.
  rewrite hideAll_paint by (by apply keyed_paint). f_equal.
  rewrite <- paint_app. apply paint_ext. intros k.
  rewrite elem_of_app, hiddenKeys_paint by done. tauto.
Qed.

(** One parentless start event among the candidates makes the filter of
    [start] throw. *)
Lemma select_throws (l : list Element) w :
  Exists (λ e : Element,
    isType e "bpmn:StartEvent" = true ∧ parent e = None) l →
  ElementRegistry.select Dungeon.isTopLevelStart l w = (Throw TypeError, w).
Proof.
  induction l as [|e l IH]; intros Hex; [by apply Exists_nil in Hex|].
  simpl. unfold bind.
  apply Exists_cons in Hex as [[Hs Hp]|Hex].
  - by rewrite isTopLevelStart_throws.
  - destruct (isTopLevelStart_cases e w) as [-> | ->]; [|done].
    by rewrite (IH Hex).
Qed.

(** X8. [start] reads [element.parent.type] of every start event: when a
    registered start event has no parent, [start] throws a TypeError after
    [hideAll] has run, so that it leaves the world [hideAll] leaves, with
    every element that is not a Process container hidden and nothing
    revealed. *)
Theorem start_parentless_throws (w : World) (k : string) (e : Element) :
  keyed w →
  elementsOf w !! k = Some e →
  isType e "bpmn:StartEvent" = true →
  parent e = None →
  Dungeon.start w = (Throw TypeError, exec Dungeon.hideAll w)
  ∧ ∀ k' c, elementRegistry w !! k' = Some c →
      isType (element c) "bpmn:Process" = false →
      visible (exec Dungeon.start w) k' = false.
Proof.
  intros Hw He Hs Hp.
  assert (Hrun : Dungeon.start w = (Throw TypeError, exec Dungeon.hideAll w)).
  { unfold Dungeon.start, bind, exec. rewrite hideAll_paint by done. simpl.
    unfold ElementRegistry.filter. rewrite select_throws; [done|].
    apply Exists_exists. exists e. split; [|done].
    apply elem_of_elementList. exists k.
    by rewrite elementsOf_paint. }
  split; [done|]. intros k' c Hc Hproc. unfold exec at 1. rewrite Hrun. simpl.
  unfold exec. rewrite hideAll_paint by done. simpl.
  rewrite (visible_hideAll w k' c) by done. by rewrite Hproc, andb_false_r.
Qed.

(** X9. [start] is idempotent on a registry that files each element
    under its own id and whose start events have a parent: calling it
    twice leaves the same world as calling it once. *)
Theorem start_idempotent (w : World) :
  keyed w → startsHaveParent w →
  (Dungeon.start ;;; Dungeon.start) w = Dungeon.start w.
Proof.
  intros Hw Hs. unfold bind. rewrite (start_paint w) by done. simpl.
  set (w1 := paint "none" (hiddenKeys w) w).
  set (w2 := paint "inline" (startKeys w1) w1).
  assert (Hw1 : keyed w1) by (by apply keyed_paint).
  assert (Hw2 : keyed w2) by (by apply keyed_paint).
  rewrite (start_paint w2)
    by (done || by do 2 apply startsHaveParent_paint).
  simpl. f_equal. apply world_eq; [|done..]. intros k.
  set (w3 := paint "none" (hiddenKeys w2) w2).
  pose proof (paint_lookup "inline" (startKeys w3) w3 k) as H3.
  pose proof (paint_lookup "none" (hiddenKeys w2) w2 k) as H2.
  pose proof (paint_lookup "inline" (startKeys w1) w1 k) as H1.
  fold w2 in H1. fold w3 in H2. rewrite H3, H2.
  assert (Hs3 : k ∈ startKeys w3 ↔ k ∈ startKeys w1).
  { unfold w3, w2. by rewrite !startKeys_paint. }
  assert (Hh2 : k ∈ hiddenKeys w2 ↔ k ∈ hiddenKeys w).
  { unfold w2, w1. by rewrite !hiddenKeys_paint. }
  pose proof (paint_lookup "none" (hiddenKeys w) w k) as H0. fold w1 in H0.
  rewrite H1, H0.
  destruct (decide (k ∈ startKeys w3)), (decide (k ∈ hiddenKeys w2)),
           (decide (k ∈ startKeys w1)), (decide (k ∈ hiddenKeys w));
    try (exfalso; tauto);
    destruct (elementRegistry w !! k); simpl; by rewrite ?setAttr_override.
Qed.

End Reset.

Lemma hideAll_spares_containers_witness :
  ∃ w', @Dungeon.hideAll bpmn Sample.imported = (Normal tt, w')
    ∧ (∀ k c, elementRegistry Sample.imported !! k = Some c →
         @isType bpmn (element c) "bpmn:Process" = false →
         display w' k = Some "none" ∧ visible w' k = false)
    ∧ (∀ k c, elementRegistry Sample.imported !! k = Some c →
         @isType bpmn (element c) "bpmn:Process" = true →
         elementRegistry w' !! k = Some c)
    ∧ elementsOf w' = elementsOf Sample.imported
    ∧ console w' = console Sample.imported
    ∧ zoomScroll w' = zoomScroll Sample.imported.
Proof.
  apply (@hideAll_spares_containers bpmn Sample.imported).
  unfold keyed. by_evaluation.
Defined.

Lemma hideAll_idempotent_witness :
  (@Dungeon.hideAll bpmn ;;; @Dungeon.hideAll bpmn) Sample.imported
  = @Dungeon.hideAll bpmn Sample.imported.
Proof.
  apply (@hideAll_idempotent bpmn Sample.imported). unfold keyed. by_evaluation.
Defined.

Lemma start_parentless_throws_witness :
  @Dungeon.start bpmn Stray.imported
  = (Throw TypeError, exec (@Dungeon.hideAll bpmn) Stray.imported)
  ∧ ∀ k' c, elementRegistry Stray.imported !! k' = Some c →
      @isType bpmn (element c) "bpmn:Process" = false →
      visible (exec (@Dungeon.start bpmn) Stray.imported) k' = false.
Proof.
  apply (@start_parentless_throws bpmn Stray.imported "A" Stray.orphan).
  - unfold keyed. by_evaluation.
  - vm_compute. reflexivity.
  - reflexivity.
  - reflexivity.
Defined.

Lemma start_idempotent_witness :
  (@Dungeon.start bpmn ;;; @Dungeon.start bpmn) Sample.imported
  = @Dungeon.start bpmn Sample.imported.
Proof.
  apply (@start_idempotent bpmn Sample.imported).
  - unfold keyed. by_evaluation.
  - unfold startsHaveParent. by_evaluation.
Defined.

Section Sessions.
Context `{Metamodel}.

(** Whatever calls a host makes, the elements stay and the graph stays
    well-formed. *)
Lemma session_elementsOf calls w :
  wellFormed w →
  elementsOf (session calls w) = elementsOf w ∧ wellFormed (session calls w).
Proof.
  revert w; induction calls as [|call calls IH]; intros w Hw; [done|].
  simpl. pose proof (elementsOf_perform w call Hw) as Hstep.
  destruct (IH (exec (perform call) w)) as [Heq Hwf].
  { by apply (wellFormed_ext w). }
  split; [|done]. by rewrite Heq.
Qed.

(** X10. [start] forgets the walk: on a well-formed element graph, after
    any sequence of calls of [start], [showElements] and [showNext],
    whether they returned or threw, [start] returns normally and an
    element that is not a Process container is visible afterwards exactly
    when it is a start event whose parent's type is the root Process. *)
Theorem start_forgets_walk (w : World) (calls : list Call) :
  wellFormed w →
  fst (Dungeon.start (session calls w)) = Normal tt
  ∧ ∀ k c, elementRegistry w !! k = Some c →
      isType (element c) "bpmn:Process" = false →
      visible (exec Dungeon.start (session calls w)) k
      = topLevelStart (element c).
Proof.
  intros Hw. destruct (session_elementsOf calls w Hw) as [Heq (Hk & Hs & _)].
  split; [by rewrite start_paint|]. intros k c Hc Hp.
  assert (He : elementsOf (session calls w) !! k = Some (element c))
    by (by rewrite Heq, elementsOf_lookup, Hc).
  rewrite elementsOf_lookup in He.
  destruct (elementRegistry (session calls w) !! k) as [c'|] eqn:Hc'; [|done].
  injection He as He.
  rewrite (visible_start (session calls w) k c') by done.
  by rewrite He, Hp, orb_false_r.
Qed.

End Sessions.

Lemma start_forgets_walk_witness :
  let calls := [ShowElements ["A"; "B"]; ShowNext "B"; ShowNext "missing"] in
  fst (@Dungeon.start bpmn (@session bpmn calls Sample.imported)) = Normal tt
  ∧ ∀ k c, elementRegistry Sample.imported !! k = Some c →
      @isType bpmn (element c) "bpmn:Process" = false →
      visible (exec (@Dungeon.start bpmn) (@session bpmn calls Sample.imported)) k
      = @topLevelStart bpmn (element c).
Proof.
  apply (@start_forgets_walk bpmn Sample.imported).
  unfold wellFormed, keyed, startsHaveParent. by_evaluation.
Defined.

(** ** [showElements] *)

Lemma loggedFor_notFound w ids :
  ids ≫= loggedFor (elementsOf w)
  = notFound <$> List.filter (λ i, negb (registered w i)) ids.
Proof.
  induction ids as [|i ids IH]; [done|].
  rewrite bind_cons, IH. simpl. unfold loggedFor at 1, registered at 2.
  rewrite elementsOf_lookup.
  by destruct (elementRegistry w !! i).
Qed.

(** X11. [showElements] never throws, and what it logs is one line per
    given id that is not registered, in the order of the ids (an id given
    twice is logged twice) and nothing else; the camera and the elements
    are untouched. *)
Theorem showElements_log (w : World) (elementIds : list string) :
  let w' := exec (Dungeon.showElements elementIds) w in
  fst (Dungeon.showElements elementIds w) = Normal tt
  ∧ console w'
    = console w ++ (notFound <$> List.filter (λ i, negb (registered w i)) elementIds)
  ∧ zoomScroll w' = zoomScroll w
  ∧ elementsOf w' = elementsOf w.
Proof.
  unfold exec. rewrite showElements_paint. simpl.
  split; [done|]. split; [by rewrite loggedFor_notFound|]. split; [done|].
  by rewrite elementsOf_say, elementsOf_paint.
Qed.

(** X12. [showElements] only reveals: what was visible stays visible, and
    every given id that has graphics is visible afterwards. *)
Theorem showElements_only_reveals (w : World) (elementIds : list string) (k : string) :
  (visible w k = true →
   visible (exec (Dungeon.showElements elementIds) w) k = true)
  ∧ (k ∈ elementIds → is_Some (elementRegistry w !! k) →
     visible (exec (Dungeon.showElements elementIds) w) k = true).
Proof.
  unfold exec. rewrite showElements_paint. simpl.
  rewrite visible_say, visible_paint_inline. split.
  - by intros ->.
  - intros Hin Hreg. apply orb_true_iff. right. apply bool_decide_eq_true.
    split; [|done]. apply elem_of_revealed. by left.
Qed.

Lemma revealed_same_ids (ids ids' : list string) elements k :
  (∀ i, i ∈ ids ↔ i ∈ ids') →
  k ∈ ids ≫= revealedFor ids elements ↔ k ∈ ids' ≫= revealedFor ids' elements.
Proof.
  intros Hmem. rewrite !elem_of_revealed. rewrite Hmem.
  apply or_iff_compat_l.
  split; intros (i & e & cs & c & Hi & He & Hin & Hc & Hk & Hs);
    exists i, e, cs, c; (split; [by apply Hmem|]);
    do 4 (split; [done|]); by apply Hmem.
Qed.

(** X13. [showElements] reads its argument as a set: two collections
    with the same ids, in whatever order and however often repeated, leave
    the same registry and so the same visible set. *)
Theorem showElements_ids_as_set (w : World) (ids ids' : list string) :
  (∀ i, i ∈ ids ↔ i ∈ ids') →
  elementRegistry (exec (Dungeon.showElements ids) w)
  = elementRegistry (exec (Dungeon.showElements ids') w)
  ∧ ∀ k, visible (exec (Dungeon.showElements ids) w) k
         = visible (exec (Dungeon.showElements ids') w) k.
Proof.
  intros Hmem.
  assert (Hreg : elementRegistry (exec (Dungeon.showElements ids) w)
                 = elementRegistry (exec (Dungeon.showElements ids') w)).
  { unfold exec. rewrite !showElements_paint. simpl.
    change (elementRegistry
              (paint "inline" (ids ≫= revealedFor ids (elementsOf w)) w)
            = elementRegistry
                (paint "inline" (ids' ≫= revealedFor ids' (elementsOf w)) w)).
    f_equal. apply paint_ext. intros k. by apply revealed_same_ids. }
  split; [done|]. intros k. unfold visible. by rewrite Hreg.
Qed.

Lemma showElements_ids_as_set_witness :
  elementRegistry (exec (Dungeon.showElements ["A"; "B"; "A"]) Sample.hidden)
  = elementRegistry (exec (Dungeon.showElements ["B"; "A"]) Sample.hidden)
  ∧ ∀ k, visible (exec (Dungeon.showElements ["A"; "B"; "A"]) Sample.hidden) k
         = visible (exec (Dungeon.showElements ["B"; "A"]) Sample.hidden) k.
Proof.
  apply (showElements_ids_as_set Sample.hidden ["A"; "B"; "A"] ["B"; "A"]).
  intros i. rewrite !elem_of_cons, !elem_of_nil. tauto.
Defined.

(** X14. Repeating a [showElements] call changes nothing but the console:
    the registry after two calls is the registry after one, and the lines
    of the unknown ids are logged once more. *)
Theorem showElements_repeat (w : World) (elementIds : list string) :
  let once := exec (Dungeon.showElements elementIds) w in
  let twice :=
    exec (Dungeon.showElements elementIds ;;; Dungeon.showElements elementIds) w in
  elementRegistry twice = elementRegistry once
  ∧ zoomScroll twice = zoomScroll once
  ∧ console twice
    = console once
      ++ (notFound <$> List.filter (λ i, negb (registered w i)) elementIds).
Proof.
  unfold exec, bind. rewrite (showElements_paint elementIds w).
  rewrite showElements_paint. simpl.
  rewrite elementsOf_say, elementsOf_paint.
  split; [|split; [done|by rewrite loggedFor_notFound]].
  change (elementRegistry
            (paint "inline" (elementIds ≫= revealedFor elementIds (elementsOf w))
               (paint "inline"
                  (elementIds ≫= revealedFor elementIds (elementsOf w)) w))
          = elementRegistry
              (paint "inline"
                 (elementIds ≫= revealedFor elementIds (elementsOf w)) w)).
  by rewrite paint_twice.
Qed.

(** ** [showNext] *)

Section Next.
Context `{Metamodel}.

(** X15. Whether it returns or throws, [showNext] never logs, never moves
    the camera, never changes an element and never hides: what was visible
    stays visible. On an id that is not registered it throws a TypeError
    and leaves the world exactly as it was. *)
Theorem showNext_frame (w : World) (taskId : string) :
  let w' := exec (Dungeon.showNext taskId) w in
  console w' = console w
  ∧ zoomScroll w' = zoomScroll w
  ∧ elementsOf w' = elementsOf w
  ∧ (∀ k, visible w k = true → visible w' k = true)
  ∧ (elementRegistry w !! taskId = None →
     Dungeon.showNext taskId w = (Throw TypeError, w)).
Proof.
  unfold exec. destruct (elementsOf w !! taskId) as [e|] eqn:He.
  - rewrite (showNext_paint taskId e) by done. simpl.
    split; [done|]. split; [done|]. split; [apply elementsOf_paint|]. split.
    + intros k Hk. by rewrite visible_paint_inline, Hk.
    + intros Hnone. by rewrite elementsOf_lookup, Hnone in He.
  - rewrite showNext_throws by done. by simpl.
Qed.

(** X16. A dead end: on a registered element none of whose outgoing
    connections leads to a Gateway or an EndEvent (one with no outgoing
    connection among them), [showNext] returns normally and leaves the
    world exactly as it was. *)
Theorem showNext_dead_end (w : World) (taskId : string) (e : Element) :
  elementsOf w !! taskId = Some e →
  (∀ c : Connection, c ∈ outgoing e →
     isType (target c) "bpmn:Gateway" = false
     ∧ isType (target c) "bpmn:EndEvent" = false) →
  Dungeon.showNext taskId w = (Normal tt, w).
Proof.
  intros He Hplain. rewrite (showNext_paint taskId e) by done. f_equal.
  rewrite <- (paint_nil "inline" w) at 2. apply paint_ext. intros k.
  rewrite elem_of_revealedNext, elem_of_nil. split; [|done].
  intros (c & Hc & Hd & _). destruct (Hplain c Hc) as [Hg He'].
  by rewrite Hg, He' in Hd.
Qed.

(** X17. [showNext] is idempotent: calling it twice on an id leaves the
    same world, with the same completion, as calling it once. *)
Theorem showNext_idempotent (w : World) (taskId : string) :
  (Dungeon.showNext taskId ;;; Dungeon.showNext taskId) w
  = Dungeon.showNext taskId w.
Proof.
  unfold bind. destruct (elementsOf w !! taskId) as [e|] eqn:He.
  - rewrite (showNext_paint taskId e w) by done.
    rewrite (showNext_paint taskId e) by (by rewrite elementsOf_paint).
    by rewrite paint_twice.
  - by rewrite showNext_throws.
Qed.

End Next.

Lemma showNext_dead_end_witness :
  @Dungeon.showNext bpmn "A" Sample.hidden = (Normal tt, Sample.hidden).
Proof.
  apply (@showNext_dead_end bpmn Sample.hidden "A"
           (Sample.node Sample.startA Sample.process 180 100 [] [Sample.f_AB])).
  - vm_compute. reflexivity.
  - intros c Hc. apply list_elem_of_singleton in Hc as ->. split; reflexivity.
Defined.

(** ** The shape.added listener, type by type *)

Lemma insertBeforeFirst_last (a : gmap string string) (l : list Node) (n : Node) :
  Graphics.insertBeforeFirst (length l) (mkGfx a (l ++ [n])) = mkGfx a (n :: l).
Proof.
  unfold Graphics.insertBeforeFirst. simpl.
  rewrite list_lookup_middle by done.
  rewrite take_app_length, drop_ge by (rewrite length_app; simpl; lia).
  by rewrite app_nil_r.
Qed.

Section Iconography.
Context `{Metamodel}.

(** Off labels, the listener lays the backgrounds in front of the
    children it finds and appends the badges. *)
Lemma shapeAdded_unlabelled (e : Element) (g : Gfx) :
  type e ≠ "label" →
  Dungeon.shapeAdded e g
  = mkGfx (attrs g) (backgrounds e ++ children g ++ badges e).
Proof.
  intros Hne. unfold Dungeon.shapeAdded, backgrounds, badges.
  rewrite decide_False by done.
  rewrite (bool_decide_eq_false_2 (type e = "label")) by done.
  destruct g as [a l]. unfold Graphics.image. simpl.
  destruct (isType e "bpmn:Task" || isType e "bpmn:CallActivity");
    destruct (isType e "bpmn:StartEvent");
    destruct (isType e "bpmn:EndEvent");
    destruct (isType e "bpmn:Gateway");
    destruct (isType e "bpmn:SubProcess");
    simpl; rewrite ?insertBeforeFirst_last; simpl;
    rewrite ?app_nil_r; try done;
    repeat match goal with
    | |- context [Graphics.insertBeforeFirst (length ?l) (mkGfx ?a (?l ++ [?n]))] =>
        rewrite (insertBeforeFirst_last a l n)
    | |- context [Graphics.insertBeforeFirst (length (?x :: ?l))
                    (mkGfx ?a (?x :: ?l ++ [?n]))] =>
        rewrite (insertBeforeFirst_last a (x :: l) n)
    | |- context [Graphics.insertBeforeFirst (length ((?l ++ ?m)))
                    (mkGfx ?a ((?l ++ ?m) ++ [?n]))] =>
        rewrite (insertBeforeFirst_last a (l ++ m) n)
    end; simpl; rewrite <- ?app_assoc; done.
Qed.

(** X18. On a shape that is no label the listener leaves the attributes
    alone and makes the children: the sub-process background (hell.png at
    full bounds), then the task or call-activity frame (scroll.png, 20
    units out on every side), then the children that were there, in their
    order, then the badges of a start event (green diamond), of an end
    event (red diamond) and of a gateway (swords, 2 units oversized), each
    only when the element is of that type. *)
Theorem shapeAdded_layers (e : Element) (g : Gfx) :
  type e ≠ "label" →
  attrs (Dungeon.shapeAdded e g) = attrs g
  ∧ children (Dungeon.shapeAdded e g)
    = (if isType e "bpmn:SubProcess"
       then [Image "resources/hell.png" 0 0 (width e) (height e)]
       else [])
      ++ (if isType e "bpmn:Task" || isType e "bpmn:CallActivity"
          then [Image "resources/scroll.png" (-20) (-20)
                      (width e + 40)%float (height e + 40)%float]
          else [])
      ++ children g
      ++ (if isType e "bpmn:StartEvent"
          then [Image "resources/green-diamond.png" 0 0
                      (width e) (height e)]
          else [])
      ++ (if isType e "bpmn:EndEvent"
          then [Image "resources/red-diamond.png" 0 0
                      (width e) (height e)]
          else [])
      ++ (if isType e "bpmn:Gateway"
          then [Image "resources/swords.png" 0 0
                      (width e + 2)%float (height e + 2)%float]
          else []).
Proof.
  intros Hne. rewrite shapeAdded_unlabelled by done. simpl.
  split; [done|]. unfold backgrounds, badges. by rewrite <- !app_assoc.
Qed.

Lemma isImage_backgrounds (e : Element) n : n ∈ backgrounds e → isImage n.
Proof.
  unfold backgrounds. intros [Hn|Hn]%elem_of_app.
  - destruct (isType e "bpmn:SubProcess"); [|by apply elem_of_nil in Hn].
    by apply list_elem_of_singleton in Hn as ->.
  - destruct (isType e "bpmn:Task" || isType e "bpmn:CallActivity");
      [|by apply elem_of_nil in Hn].
    by apply list_elem_of_singleton in Hn as ->.
Qed.

Lemma isImage_badges (e : Element) n : n ∈ badges e → isImage n.
Proof.
  unfold badges. intros [Hn|[Hn|Hn]%elem_of_app]%elem_of_app.
  - destruct (isType e "bpmn:StartEvent"); [|by apply elem_of_nil in Hn].
    by apply list_elem_of_singleton in Hn as ->.
  - destruct (isType e "bpmn:EndEvent"); [|by apply elem_of_nil in Hn].
    by apply list_elem_of_singleton in Hn as ->.
  - destruct (isType e "bpmn:Gateway"); [|by apply elem_of_nil in Hn].
    by apply list_elem_of_singleton in Hn as ->.
Qed.

(** X19. Whatever the shape, the listener only adds images: the
    attributes are kept, the children that were there are all kept, next
    to one another and in their order, at most two children are put in
    front of them and at most three behind, and every child that is new is
    an image. *)
Theorem shapeAdded_only_adds_images (e : Element) (g : Gfx) :
  attrs (Dungeon.shapeAdded e g) = attrs g
  ∧ ∃ front back,
      children (Dungeon.shapeAdded e g) = front ++ children g ++ back
      ∧ (length front ≤ 2)%nat ∧ (length back ≤ 3)%nat
      ∧ Forall isImage front ∧ Forall isImage back.
Proof.
  destruct (decide (type e = "label")) as [Hl|Hne].
  - unfold Dungeon.shapeAdded. rewrite decide_True by done.
    split; [done|]. exists [], [].
    split; [by rewrite app_nil_r|].
    split; [simpl; lia|]. split; [simpl; lia|]. split; constructor.
  - rewrite shapeAdded_unlabelled by done. simpl. split; [done|].
    exists (backgrounds e), (badges e). split; [done|].
    split; [|split; [|split]].
    + unfold backgrounds.
      by destruct (isType e "bpmn:SubProcess"),
                  (isType e "bpmn:Task" || isType e "bpmn:CallActivity");
        simpl; lia.
    + unfold badges.
      by destruct (isType e "bpmn:StartEvent"), (isType e "bpmn:EndEvent"),
                  (isType e "bpmn:Gateway"); simpl; lia.
    + apply Forall_forall. apply isImage_backgrounds.
    + apply Forall_forall. apply isImage_badges.
Qed.

End Iconography.

(** The gateway of the sample gets the swords on top of its diamond. *)
Lemma shapeAdded_layers_witness :
  let e := Sample.node Sample.gatewayG Sample.process 480 340 [Sample.f_BG] [] in
  let g := mkGfx {["data-element-id" := "G"]} [Visual "polygon"] in
  attrs (@Dungeon.shapeAdded bpmn e g) = attrs g
  ∧ children (@Dungeon.shapeAdded bpmn e g)
    = (if @isType bpmn e "bpmn:SubProcess"
       then [Image "resources/hell.png" 0 0 (width e) (height e)]
       else [])
      ++ (if @isType bpmn e "bpmn:Task" || @isType bpmn e "bpmn:CallActivity"
          then [Image "resources/scroll.png" (-20) (-20)
                      (width e + 40)%float (height e + 40)%float]
          else [])
      ++ children g
      ++ (if @isType bpmn e "bpmn:StartEvent"
          then [Image "resources/green-diamond.png" 0 0
                      (width e) (height e)]
          else [])
      ++ (if @isType bpmn e "bpmn:EndEvent"
          then [Image "resources/red-diamond.png" 0 0
                      (width e) (height e)]
          else [])
      ++ (if @isType bpmn e "bpmn:Gateway"
          then [Image "resources/swords.png" 0 0
                      (width e + 2)%float (height e + 2)%float]
          else []).
Proof.
  apply (@shapeAdded_layers bpmn
           (Sample.node Sample.gatewayG Sample.process 480 340 [Sample.f_BG] [])
           (mkGfx {["data-element-id" := "G"]} [Visual "polygon"])).
  intros Hlabel. discriminate Hlabel.
Defined.

Example shapeAdded_gateway :
  children (@Dungeon.shapeAdded bpmn
              (Sample.node Sample.gatewayG Sample.process 480 340 [Sample.f_BG] [])
              (mkGfx ∅ [Visual "polygon"]))
  = [Visual "polygon";
     Image "resources/swords.png" 0 0 102 82].
Proof. reflexivity. Qed.

(** * Properties of the viewer *)

(** ** Validation errors *)

Lemma append_nil_l s : "" +:+ s = s.
Proof. reflexivity. Qed.

Lemma append_cons a s t : String a s +:+ t = String a (s +:+ t).
Proof. reflexivity. Qed.

Lemma stripPrefix_app p s : Viewer.stripPrefix p (p +:+ s) = Some s.
Proof.
  induction p as [|a p IH]; simpl; [by destruct s|].
  by rewrite decide_True.
Qed.

Lemma stripPrefix_Some p s r : Viewer.stripPrefix p s = Some r → s = p +:+ r.
Proof.
  revert s; induction p as [|a p IH]; intros s; simpl.
  - destruct s; by intros [= <-].
  - destruct s as [|b s]; [done|]. case_decide as Heq; [|done].
    intros Hr. subst b. by rewrite (IH s Hr).
Qed.

Lemma occurs_cons p a s :
  Viewer.occurs p (String a s) = false → Viewer.occurs p s = false.
Proof.
  change (Viewer.occurs p (String a s))
    with (match Viewer.stripPrefix p (String a s) with
          | Some _ => true
          | None => Viewer.occurs p s
          end).
  by destruct (Viewer.stripPrefix p (String a s)).
Qed.

Lemma occurs_head p s :
  Viewer.occurs p s = false → Viewer.stripPrefix p s = None.
Proof.
  destruct s as [|a s]; simpl; by destruct (Viewer.stripPrefix p _).
Qed.

(** [occurs] is the substring test. *)
Lemma occurs_spec p s :
  Viewer.occurs p s = true ↔ ∃ pre post, s = pre +:+ p +:+ post.
Proof.
  split.
  - induction s as [|a s IH].
    + simpl. destruct (Viewer.stripPrefix p "") as [r|] eqn:Hr; [|done].
      intros _. exists "", r. rewrite append_nil_l. by apply stripPrefix_Some.
    + change (Viewer.occurs p (String a s))
        with (match Viewer.stripPrefix p (String a s) with
              | Some _ => true
              | None => Viewer.occurs p s
              end).
      destruct (Viewer.stripPrefix p (String a s)) as [r|] eqn:Hr.
      * intros _. exists "", r. rewrite append_nil_l. by apply stripPrefix_Some.
      * intros (pre & post & ->)%IH. by exists (String a pre), post.
  - intros (pre & post & ->). induction pre as [|a pre IH].
    + simpl. destruct (p +:+ post) eqn:Hs;
        simpl; rewrite <- Hs, stripPrefix_app; done.
    + change (Viewer.occurs p (String a pre +:+ p +:+ post))
        with (match Viewer.stripPrefix p (String a (pre +:+ p +:+ post)) with
              | Some _ => true
              | None => Viewer.occurs p (pre +:+ p +:+ post)
              end).
      by destruct (Viewer.stripPrefix p _).
Qed.

Lemma matchHere_occurs s groups :
  Viewer.matchHere s = Some groups →
  is_Some (Viewer.stripPrefix "unparsable content <" s).
Proof.
  unfold Viewer.matchHere.
  destruct (Viewer.stripPrefix "unparsable content <" s); [eauto|done].
Qed.

Lemma patternExec_None s :
  Viewer.occurs "unparsable content <" s = false → Viewer.patternExec s = None.
Proof.
  induction s as [|a s IH]; intros Hno.
  - done.
  - change (Viewer.patternExec (String a s))
      with (match Viewer.matchHere (String a s) with
            | Some groups => Some groups
            | None => Viewer.patternExec s
            end).
    destruct (Viewer.matchHere (String a s)) as [groups|] eqn:Hm.
    + apply matchHere_occurs in Hm as [r Hr].
      by rewrite (occurs_head _ _ Hno) in Hr.
    + apply IH. by eapply occurs_cons.
Qed.

Lemma untilClosing_run name rest :
  Viewer.occurs ">" name = false →
  Viewer.untilClosing (name +:+ String ">" rest) = (name, String ">" rest).
Proof.
  induction name as [|a name IH]; intros Hno; simpl.
  - done.
  - pose proof (occurs_head _ _ Hno) as Hhead. simpl in Hhead.
    destruct (decide (">"%char = a)) as [<-|Hne]; [by destruct name|].
    rewrite decide_False by done.
    by rewrite IH by (by eapply occurs_cons).
Qed.

Lemma matchHere_marked name tail :
  name ≠ "" → Viewer.occurs ">" name = false →
  Viewer.matchHere ("unparsable content <" +:+ name +:+ "> detected" +:+ tail)
  = Some (name, tail).
Proof.
  intros Hne Hno. unfold Viewer.matchHere. rewrite stripPrefix_app.
  change ("> detected" +:+ tail) with (String ">" (" detected" +:+ tail)).
  rewrite untilClosing_run by done. rewrite decide_False by done.
  change (String ">" (" detected" +:+ tail)) with ("> detected" +:+ tail).
  by rewrite stripPrefix_app.
Qed.

Lemma patternExec_here s groups :
  Viewer.matchHere s = Some groups → Viewer.patternExec s = Some groups.
Proof. intros Hm. destruct s; cbn [Viewer.patternExec]; by rewrite Hm. Qed.

Lemma checkValidationError_marked name tail :
  name ≠ "" → Viewer.occurs ">" name = false →
  Viewer.checkValidationError
    ("unparsable content <" +:+ name +:+ "> detected" +:+ tail)
  = "unparsable content <" +:+ name +:+ "> detected; " +:+
    "this may indicate an invalid BPMN 2.0 diagram file" +:+ tail.
Proof.
  intros Hne Hno. unfold Viewer.checkValidationError.
  assert (Hexec : Viewer.patternExec
                    ("unparsable content <" +:+ name +:+ "> detected" +:+ tail)
                  = Some (name, tail)).
  { apply patternExec_here. by apply matchHere_marked. }
  by rewrite Hexec.
Qed.

(** X20. A message in which the text [unparsable content <] does not
    occur is left as it is by [checkValidationError]. *)
Theorem checkValidationError_other (message : string) :
  (∀ pre post, message ≠ pre +:+ "unparsable content <" +:+ post) →
  Viewer.checkValidationError message = message.
Proof.
  intros Hno. unfold Viewer.checkValidationError.
  rewrite patternExec_None; [done|].
  destruct (Viewer.occurs "unparsable content <" message) eqn:Hocc; [|done].
  apply occurs_spec in Hocc as (pre & post & ->). by destruct (Hno pre post).
Qed.

Lemma checkValidationError_other_witness :
  Viewer.checkValidationError "no definitions loaded" = "no definitions loaded".
Proof.
  apply (checkValidationError_other "no definitions loaded").
  intros pre post Heq.
  assert (Hocc : Viewer.occurs "unparsable content <" "no definitions loaded" = true)
    by (apply occurs_spec; eauto).
  vm_compute in Hocc. discriminate Hocc.
Defined.

(** X21. On a message that starts with [unparsable content <name> detected],
    the name being non-empty and free of ['>'], [checkValidationError]
    inserts the hint right after [detected] and keeps the name and the
    rest of the message; applied once more it inserts the hint once
    more. *)
Theorem checkValidationError_hint (name tail : string) :
  name ≠ "" → Viewer.occurs ">" name = false →
  let message := "unparsable content <" +:+ name +:+ "> detected" +:+ tail in
  Viewer.checkValidationError message
  = "unparsable content <" +:+ name +:+ "> detected; " +:+
    "this may indicate an invalid BPMN 2.0 diagram file" +:+ tail
  ∧ Viewer.checkValidationError (Viewer.checkValidationError message)
    = "unparsable content <" +:+ name +:+ "> detected; " +:+
      "this may indicate an invalid BPMN 2.0 diagram file; " +:+
      "this may indicate an invalid BPMN 2.0 diagram file" +:+ tail.
Proof.
  intros Hne Hno message. unfold message.
  rewrite checkValidationError_marked by done. split; [done|].
  apply (checkValidationError_marked name
           ("; this may indicate an invalid BPMN 2.0 diagram file" +:+ tail)
           Hne Hno).
Qed.

Lemma checkValidationError_hint_witness :
  let message := "unparsable content <bpmn:task> detected" +:+ " at line 3" in
  Viewer.checkValidationError message
  = "unparsable content <" +:+ "bpmn:task" +:+ "> detected; " +:+
    "this may indicate an invalid BPMN 2.0 diagram file" +:+ " at line 3"
  ∧ Viewer.checkValidationError (Viewer.checkValidationError message)
    = "unparsable content <" +:+ "bpmn:task" +:+ "> detected; " +:+
      "this may indicate an invalid BPMN 2.0 diagram file; " +:+
      "this may indicate an invalid BPMN 2.0 diagram file" +:+ " at line 3".
Proof.
  apply (checkValidationError_hint "bpmn:task" " at line 3").
  - discriminate.
  - reflexivity.
Defined.

(** The match is searched from the left and the text before it is not
    kept; a marker with an empty name is no match. *)
Example checkValidationError_drops_prefix :
  Viewer.checkValidationError "Error: unparsable content <a> detected."
  = "unparsable content <a> detected; this may indicate an invalid BPMN 2.0 diagram file."
  ∧ Viewer.checkValidationError "unparsable content <> detected"
    = "unparsable content <> detected".
Proof. split; reflexivity. Qed.

(** ** Listeners *)

Lemma initListeners_app bus ls : Viewer.initListeners bus ls = bus ++ ls.
Proof.
  unfold Viewer.initListeners. revert bus.
  induction ls as [|l ls IH]; intros bus; simpl; [by rewrite app_nil_r|].
  rewrite IH. by rewrite <- app_assoc.
Qed.

(** X22. Listeners registered with [on] are remembered in the order of
    the calls, repetitions included: after any sequence of [on] calls,
    [_init] registers on a diagram's event bus the listeners known before,
    then those of the calls, in that order; and a diagram that was loaded
    during the calls has received each of them at once. *)
Theorem on_remembers_listeners
    (v : Viewer.Registrations) (ls : list Viewer.Listener) (bus : list Viewer.Listener) :
  let v' := foldl (λ v l, Viewer.on l v) v ls in
  Viewer._init bus v' = bus ++ default [] (Viewer.listeners v) ++ ls
  ∧ Viewer.eventBus v' = (λ events, events ++ ls) <$> Viewer.eventBus v.
Proof.
  simpl. revert v; induction ls as [|l ls IH]; intros v.
  - simpl. unfold Viewer._init. rewrite initListeners_app, app_nil_r.
    split; [done|]. destruct (Viewer.eventBus v); simpl; [|done].
    by rewrite app_nil_r.
  - simpl. destruct (IH (Viewer.on l v)) as [Hinit Hbus].
    rewrite Hinit, Hbus. simpl. split.
    + by rewrite <- !app_assoc.
    + destruct (Viewer.eventBus v); simpl; [|done]. by rewrite <- app_assoc.
Qed.

(** * The camera *)

Lemma move_zoomScroll `{Runtime} m w :
  fst (move m w) = Normal tt
  ∧ elementRegistry (exec (move m) w) = elementRegistry w
  ∧ (zoomScroll (exec (move m) w) = zoomScroll w
     ∨ ∃ dx dy,
         zoomScroll (exec (move m) w) = zoomScroll w ++ [CallReset; CallScroll dx dy]).
Proof.
  destruct m as [elementId|x y]; unfold exec; simpl.
  - unfold Dungeon.scrollTo, bind, ElementRegistry.get.
    destruct (elementRegistry w !! elementId) as [c|]; simpl.
    + split; [done|]. split; [done|]. right. eexists _, _.
      by rewrite <- app_assoc.
    + split; [done|]. split; [done|]. by left.
  - split; [done|]. split; [done|]. right. exists x, y.
    by rewrite <- app_assoc.
Qed.

Lemma resetBeforeScroll_pair calls dx dy :
  resetBeforeScroll calls →
  resetBeforeScroll (calls ++ [CallReset; CallScroll dx dy]).
Proof.
  intros Hinv i dx' dy' Hi.
  destruct (decide (i < length calls)%nat) as [Hlt|Hge].
  - rewrite lookup_app_l in Hi by done.
    destruct (Hinv i dx' dy' Hi) as (j & -> & Hj). exists j. split; [done|].
    rewrite lookup_app_l by lia. done.
  - rewrite lookup_app_r in Hi by lia.
    destruct (i - length calls)%nat as [|[|n]] eqn:Hn; simpl in Hi; [done| |done].
    exists (length calls). split; [lia|].
    rewrite lookup_app_r by lia. by rewrite Nat.sub_diag.
Qed.

(** X23. The camera is always reset before it is scrolled: [scrollTo]
    and [bla] never throw, never touch the registry, and after any
    sequence of them every scroll the camera has received comes right
    after a reset, provided that held before. *)
Theorem camera_resets_before_scrolls `{Runtime} (w : World) (moves : list Move) :
  resetBeforeScroll (zoomScroll w) →
  let w' := foldl (λ w m, exec (move m) w) w moves in
  resetBeforeScroll (zoomScroll w')
  ∧ elementRegistry w' = elementRegistry w
  ∧ Forall (λ m, ∀ w0, fst (move m w0) = Normal tt) moves.
Proof.
  intros Hinv. simpl. split; [|split].
  - revert w Hinv; induction moves as [|m moves IH]; intros w Hinv; [done|].
    simpl. apply IH.
    destruct (move_zoomScroll m w) as (_ & _ & [-> | (dx & dy & ->)]);
      [done|by apply resetBeforeScroll_pair].
  - clear Hinv. revert w; induction moves as [|m moves IH]; intros w; [done|].
    simpl. rewrite IH. by destruct (move_zoomScroll m w) as (_ & -> & _).
  - apply Forall_forall. intros m _ w0. by destruct (move_zoomScroll m w0).
Qed.

Lemma camera_resets_before_scrolls_witness :
  let moves := [ScrollTo "B"; ScrollTo "missing"; Bla 10 20; ScrollTo "f_AB"] in
  let w' := foldl (λ w m, exec (@move sampleRuntime m) w) Sample.imported moves in
  resetBeforeScroll (zoomScroll w')
  ∧ elementRegistry w' = elementRegistry Sample.imported
  ∧ Forall (λ m, ∀ w0, fst (@move sampleRuntime m w0) = Normal tt) moves.
Proof.
  apply (@camera_resets_before_scrolls sampleRuntime Sample.imported
           [ScrollTo "B"; ScrollTo "missing"; Bla 10 20; ScrollTo "f_AB"]).
  intros i dx dy Hi. vm_compute in Hi. destruct i; discriminate Hi.
Defined.

Example camera_trace :
  zoomScroll (foldl (λ w m, exec (@move sampleRuntime m) w) Sample.imported
                [ScrollTo "B"; ScrollTo "missing"; Bla 10 20; ScrollTo "f_AB"])
  = [CallReset; CallScroll (-225) (-5);
     CallReset; CallScroll 10 20;
     CallReset; CallScroll nan nan].
Proof. reflexivity. Qed.
